(** * The collect-the-dot simulation step of react-native-earl-gamepad-example

    A shallow embedding of the per-frame game logic of the main screen, as
    found in [src/components/GameView.tsx] from line 189 on: the [step]
    closure of the [Home] component (lines 295-358) and the helper functions
    [getInputVector], [spawnTarget], [randomPoint], [randomBetween], [clamp]
    and [distance] (lines 575-634).

    Modelling conventions.
    - A JavaScript [number] is a real number ([R]): arithmetic is exact and
      there is no NaN or infinity.  [Math.min], [Math.max] are [Rmin], [Rmax];
      [Math.hypot x y] is [sqrt (x*x + y*y)].
    - [Math.random ()] reads the next element of a stream of draws, kept in
      the state together with a cursor; the language guarantees each draw is
      in [0, 1) ([unit_draws]).
    - [requestAnimationFrame] calls [step] with the time of a monotonic
      clock: a frame's timestamp is not earlier than the one before it
      ([monotone_clock]).
    - React state ([player], [target], [score]) and refs ([targetRef],
      [lastFrame]) are fields of one record which [step] transforms; queued
      state updates are applied at once.  The optional [vibrate] call is
      recorded as an emitted effect.
    - The score only ever holds 0 incremented by one, it is an integer ([Z]). *)

From Stdlib Require Import Reals Lra Lia ZArith List Bool.
From Stdlib Require String Ascii.
Import ListNotations.
Import String.StringSyntax Ascii.AsciiSyntax.
Delimit Scope string_scope with string.

Open Scope R_scope.

(** ** Types *)

(** [GamepadButtonName]: the logical buttons, as listed in [BUTTONS]
    (lines 220-238). *)
Module Btn.

Inductive GamepadButtonName : Set :=
  | a | b | x | y | lb | rb | lt | rt | back | start | ls | rs
  | dpadUp | dpadDown | dpadLeft | dpadRight | home.

Definition eq_dec (u v : GamepadButtonName) : {u = v} + {u <> v}.
Proof. decide equality. Defined.

End Btn.

(** [Set<GamepadButtonName>] with its [has] method. *)
Definition ButtonSet := list Btn.GamepadButtonName.

Definition has (pressed : ButtonSet) (name : Btn.GamepadButtonName) : bool :=
  if in_dec Btn.eq_dec name pressed then true else false.

(** The axis mapping of [useGamepad]; an entry may be absent. *)
Record Axes := {
  leftX : option R;
  leftY : option R;
  rightX : option R;
  rightY : option R
}.

(** [{ x: number; y: number }] *)
Module Point.

Record t := { x : R; y : R }.

End Point.

Module PlayerState.

Record t := {
  x : R;
  y : R;
  rotation : R;
  scale : R
}.

End PlayerState.

(** Anything with numeric [x] and [y] members: the structural type that
    [distance] accepts for both of its arguments. *)
Class XY (A : Type) := { getX : A -> R; getY : A -> R }.

#[export] Instance Point_XY : XY Point.t :=
  {| getX := Point.x; getY := Point.y |}.
#[export] Instance PlayerState_XY : XY PlayerState.t :=
  {| getX := PlayerState.x; getY := PlayerState.y |}.

(** ** Constants (lines 217-219) *)

Definition PLAYER_SIZE : R := 44.
Definition TARGET_SIZE : R := 26.
Definition BASE_SPEED : R := 240.

(** ** The random source *)

(** The engine's generator: the draws it will return, and how many were
    taken. *)
Record Random := { draws : nat -> R; cursor : nat }.

(** Every draw of [Math.random] is in [0, 1). *)
Definition unit_draws (g : Random) : Prop :=
  forall n : nat, 0 <= draws g n < 1.

(** Computations that draw random numbers. *)
Definition Rand (A : Type) : Type := Random -> A * Random.

Definition ret {A : Type} (v : A) : Rand A := fun g => (v, g).

Definition bind {A B : Type} (c : Rand A) (k : A -> Rand B) : Rand B :=
  fun g => let (v, g') := c g in k v g'.

Notation "v <- c ;; k" := (bind c (fun v => k))
  (at level 61, c at next level, right associativity).

Definition Math_random : Rand R :=
  fun g => (draws g (cursor g), {| draws := draws g; cursor := S (cursor g) |}).

(** ** Helper functions (lines 575-634) *)

(** [o ?? d] on an optional number. *)
Definition nullish (o : option R) (d : R) : R :=
  match o with Some v => v | None => d end.

(** [c ? 1 : 0] *)
Definition one_if (c : bool) : R := if c then 1 else 0.

(** [Math.hypot] *)
Definition hypot (u v : R) : R := sqrt (u * u + v * v).

Definition clamp (value min max : R) : R := Rmin max (Rmax min value).

Definition distance {A B : Type} `{XY A} `{XY B} (p : A) (q : B) : R :=
  hypot (getX p - getX q) (getY p - getY q).

Definition randomBetween (min max : R) : Rand R :=
  u <- Math_random ;; ret (u * (max - min) + min).

(** The [x] member is evaluated before the [y] member. *)
Definition randomPoint (boardSize : R) : Rand Point.t :=
  let margin := PLAYER_SIZE in
  x <- randomBetween margin (boardSize - margin) ;;
  y <- randomBetween margin (boardSize - margin) ;;
  ret {| Point.x := x; Point.y := y |}.

Definition getInputVector (axes : Axes) (pressed : ButtonSet) : Point.t :=
  let leftX := nullish (leftX axes) 0 in
  let leftY := nullish (leftY axes) 0 in
  let x := clamp (leftX + one_if (has pressed Btn.dpadRight)
                        - one_if (has pressed Btn.dpadLeft)) (-1) 1 in
  let y := clamp (leftY + one_if (has pressed Btn.dpadDown)
                        - one_if (has pressed Btn.dpadUp)) (-1) 1 in
  let magnitude := Rmax 1 (hypot x y) in
  {| Point.x := x / magnitude; Point.y := y / magnitude |}.

(** The [for] loop of [spawnTarget] with [n] iterations left, [candidate]
    being the point sampled last. *)
Fixpoint spawnTarget_loop (n : nat) (boardSize : R) (player : PlayerState.t)
    (candidate : Point.t) : Rand Point.t :=
  match n with
  | O => ret candidate
  | S n' =>
      if Rgt_dec (distance candidate player) 100 then ret candidate
      else
        candidate' <- randomPoint boardSize ;;
        spawnTarget_loop n' boardSize player candidate'
  end.

Definition spawnTarget (boardSize : R) (player : PlayerState.t) : Rand Point.t :=
  candidate <- randomPoint boardSize ;;
  spawnTarget_loop 20 boardSize player candidate.

(** ** The [Home] component *)

(** [boardSize], from the window width (line 244). *)
Definition boardSize_of (width : R) : R := Rmax 260 (Rmin (width - 32) 420).

(** What one animation frame reads: the callback's [timestamp] and the
    current values of [pressedRef] and [axesRef]. *)
Record Frame := {
  timestamp : R;
  pressedButtons : ButtonSet;
  axes : Axes
}.

(** Calls made on the bridge. *)
Inductive Effect : Type :=
  | Vibrate (duration intensity : R).

(** The state and refs the game loop reads and writes, with the generator. *)
Record Home := {
  player : PlayerState.t;
  target : Point.t;
  score : Z;
  targetRef : Point.t;
  lastFrame : option R;
  random : Random
}.

(** The state at mount (lines 249-266): the player in the middle of the
    board, the target a fresh random point which [targetRef] mirrors. *)
Definition mount (boardSize : R) (g : Random) : Home :=
  let (p, g') := randomPoint boardSize g in
  {| player := {| PlayerState.x := boardSize / 2;
                  PlayerState.y := boardSize / 2;
                  PlayerState.rotation := 0;
                  PlayerState.scale := 1 |};
     target := p;
     score := 0%Z;
     targetRef := p;
     lastFrame := None;
     random := g' |}.

(** [dt]: seconds since the last frame, capped (lines 296-297). *)
Definition elapsed (lastFrame : option R) (timestamp : R) : R :=
  let last := nullish lastFrame timestamp in
  Rmin ((timestamp - last) / 1000) 0.05.

(** 1. SPEED (lines 305-306) *)
Definition currentSpeed (pressed : ButtonSet) : R :=
  let isTurbo := has pressed Btn.x in
  if isTurbo then BASE_SPEED * 2.5 else BASE_SPEED.

(** 2. MOVEMENT: [(dx, dy)] (lines 309-311) *)
Definition movement (axes : Axes) (pressed : ButtonSet) (dt : R) : R * R :=
  let input := getInputVector axes pressed in
  (Point.x input * currentSpeed pressed * dt,
   Point.y input * currentSpeed pressed * dt).

(** 3. ROTATION (lines 314-316) *)
Definition newRotation (pressed : ButtonSet) (dt : R) (prev : PlayerState.t) : R :=
  let newRotation := PlayerState.rotation prev in
  let newRotation :=
    if has pressed Btn.lb then newRotation - 200 * dt else newRotation in
  let newRotation :=
    if has pressed Btn.rb then newRotation + 200 * dt else newRotation in
  newRotation.

(** 4. SCALE (lines 319-323) *)
Definition newScale (pressed : ButtonSet) (dt : R) (prev : PlayerState.t) : R :=
  let newScale := PlayerState.scale prev in
  let newScale :=
    if has pressed Btn.lt then Rmax 0.5 (newScale - 2 * dt) else newScale in
  let newScale :=
    if has pressed Btn.rt then Rmin 2.5 (newScale + 2 * dt) else newScale in
  newScale.

(** The [next] player of the updater passed to [setPlayer] (lines 325-338). *)
Definition nextPlayer (boardSize : R) (axes : Axes) (pressed : ButtonSet)
    (dt : R) (prev : PlayerState.t) : PlayerState.t :=
  let '(dx, dy) := movement axes pressed dt in
  {| PlayerState.x :=
       clamp (PlayerState.x prev + dx) (PLAYER_SIZE / 2) (boardSize - PLAYER_SIZE / 2);
     PlayerState.y :=
       clamp (PlayerState.y prev + dy) (PLAYER_SIZE / 2) (boardSize - PLAYER_SIZE / 2);
     PlayerState.rotation := newRotation pressed dt prev;
     PlayerState.scale := newScale pressed dt prev |}.

(** 5. COLLISION: the test of the [if] (lines 341-344). *)
Definition collision (next : PlayerState.t) (target : Point.t) : bool :=
  let dist := distance next target in
  let effectivePlayerSize := PLAYER_SIZE * PlayerState.scale next in
  if Rle_dec dist ((effectivePlayerSize + TARGET_SIZE) / 2) then true else false.

(** One animation frame: [step] with the updater it passes to [setPlayer]
    (lines 295-355).  [vibrate] tells whether the bridge offers a vibration
    function. *)
Definition step (boardSize : R) (vibrate : bool) (f : Frame) (h : Home)
    : Home * list Effect :=
  let dt := elapsed (lastFrame h) (timestamp f) in
  let next := nextPlayer boardSize (axes f) (pressedButtons f) dt (player h) in
  if collision next (targetRef h) then
    let (newTarget, g') := spawnTarget boardSize next (random h) in
    ({| player := next;
        target := newTarget;
        score := (score h + 1)%Z;
        targetRef := newTarget;
        lastFrame := Some (timestamp f);
        random := g' |},
     if vibrate then [Vibrate 60 0.7] else [])
  else
    ({| player := next;
        target := target h;
        score := score h;
        targetRef := targetRef h;
        lastFrame := Some (timestamp f);
        random := random h |},
     []).

(** The game loop over successive frames, with the effects in order. *)
Fixpoint run (boardSize : R) (vibrate : bool) (frames : list Frame) (h : Home)
    : Home * list Effect :=
  match frames with
  | [] => (h, [])
  | f :: rest =>
      let (h1, e1) := step boardSize vibrate f h in
      let (h2, e2) := run boardSize vibrate rest h1 in
      (h2, e1 ++ e2)
  end.

(** The frame clock never runs backwards: each timestamp is at least the one
    before it ([requestAnimationFrame] passes a monotonic time). *)
Fixpoint monotone_clock (last : option R) (frames : list Frame) : Prop :=
  match frames with
  | [] => True
  | f :: rest =>
      nullish last (timestamp f) <= timestamp f
      /\ monotone_clock (Some (timestamp f)) rest
  end.

(** The board inset by half the player's size, on both axes. *)
Definition in_bounds (boardSize : R) (p : PlayerState.t) : Prop :=
  PLAYER_SIZE / 2 <= PlayerState.x p <= boardSize - PLAYER_SIZE / 2
  /\ PLAYER_SIZE / 2 <= PlayerState.y p <= boardSize - PLAYER_SIZE / 2.

(** The threshold of the collision test for the player [next]. *)
Definition hit_radius (next : PlayerState.t) : R :=
  (PLAYER_SIZE * PlayerState.scale next + TARGET_SIZE) / 2.

(** The coordinates a spawned target is meant to have: the board inset by
    the margin [PLAYER_SIZE]. *)
Definition in_margin (boardSize : R) (p : Point.t) : Prop :=
  PLAYER_SIZE <= Point.x p <= boardSize - PLAYER_SIZE
  /\ PLAYER_SIZE <= Point.y p <= boardSize - PLAYER_SIZE.

(** The generator after [n] more draws. *)
Definition advance (n : nat) (g : Random) : Random :=
  {| draws := draws g; cursor := (n + cursor g)%nat |}.

(** The [k]-th point, counting from 1, that successive calls of
    [randomPoint] sample from the generator [g]. *)
Definition sample (boardSize : R) (g : Random) (k : nat) : Point.t :=
  fst (randomPoint boardSize (advance (2 * (k - 1)) g)).

(** The distance check of [spawnTarget]. *)
Definition far_enough (p : Point.t) (player : PlayerState.t) : Prop :=
  distance p player > 100.

(** The statement that [spawnTarget] returns a point inside the margin
    which is far enough from the player, unless the first 20 samples all
    fail the check, in which case it returns the 20th sample. *)
Definition spawn_returns_far_or_20th (boardSize : R) (player : PlayerState.t)
    (g : Random) : Prop :=
  let p := fst (spawnTarget boardSize player g) in
  in_margin boardSize p
  /\ (far_enough p player
      \/ ((forall k : nat, (1 <= k <= 20)%nat ->
             ~ far_enough (sample boardSize g k) player)
          /\ p = sample boardSize g 20%nat)).

(** ** The movement vector in the words of the specification *)

(** A directional pad axis: +1 for the positive direction, -1 for the
    negative one. *)
Definition dpad_axis (positive negative : bool) : R :=
  (if positive then 1 else 0) + (if negative then -1 else 0).

(** A value clamped to [-1, 1]. *)
Definition clamp_unit (v : R) : R :=
  if Rlt_dec v (-1) then -1 else if Rlt_dec 1 v then 1 else v.

(** Stick plus pad on each axis, clamped, then both components divided by
    max(1, hypot(x, y)). *)
Definition movement_vector_spec (axes : Axes) (pressed : ButtonSet) : Point.t :=
  let stickX := match leftX axes with Some v => v | None => 0 end in
  let stickY := match leftY axes with Some v => v | None => 0 end in
  let vx := clamp_unit (stickX + dpad_axis (has pressed Btn.dpadRight)
                                           (has pressed Btn.dpadLeft)) in
  let vy := clamp_unit (stickY + dpad_axis (has pressed Btn.dpadDown)
                                           (has pressed Btn.dpadUp)) in
  let divisor := Rmax 1 (sqrt (vx * vx + vy * vy)) in
  {| Point.x := vx / divisor; Point.y := vy / divisor |}.

(** No axis entry at all. *)
Definition no_axes : Axes :=
  {| leftX := None; leftY := None; rightX := None; rightY := None |}.

(** ** Sample inputs *)

(** A generator whose every draw is [u]. *)
Definition constant_draws (u : R) : Random :=
  {| draws := fun _ => u; cursor := 0 |}.

(** A frame at time [t] with no axis entry and no button pressed. *)
Definition neutral_frame (t : R) : Frame :=
  {| timestamp := t; pressedButtons := []; axes := no_axes |}.

(** A frame at time [t] with the given buttons held and no axis entry. *)
Definition button_frame (t : R) (pressed : ButtonSet) : Frame :=
  {| timestamp := t; pressedButtons := pressed; axes := no_axes |}.

(** A state in the middle of a 260 board, the target in the corner, the
    last frame at time 0. *)
Definition sample_home : Home :=
  {| player := {| PlayerState.x := 130; PlayerState.y := 130;
                  PlayerState.rotation := 0; PlayerState.scale := 1 |};
     target := {| Point.x := 44; Point.y := 44 |};
     score := 0%Z;
     targetRef := {| Point.x := 44; Point.y := 44 |};
     lastFrame := Some 0;
     random := constant_draws 0 |}.

(** A player standing in the middle of a 260 board. *)
Definition centre_player : PlayerState.t :=
  {| PlayerState.x := 130; PlayerState.y := 130;
     PlayerState.rotation := 0; PlayerState.scale := 1 |}.

(** A generator whose first 40 draws are 1/2 and whose later draws are 3/4:
    on a 260 board its first 20 points are (130, 130) and the next ones
    (173, 173). *)
Definition stuck_draws : Random :=
  {| draws := fun n => if Nat.ltb n 40 then 1 / 2 else 3 / 4; cursor := 0 |}.

(** The cleanup and re-run of the game-loop effect when [boardSize] changes
    with the window: the loop forgets its last frame, the state is kept. *)
Definition restart (h : Home) : Home :=
  {| player := player h;
     target := target h;
     score := score h;
     targetRef := targetRef h;
     lastFrame := None;
     random := random h |}.

(** A game on a 420 board: mounted, then one idle frame, then one 50 ms frame
    with turbo and pad-right held. *)
Definition wide_game : Home :=
  fst (run 420 false
         [neutral_frame 0; button_frame 50 [Btn.x; Btn.dpadRight]]
         (mount 420 (constant_draws 0))).

(** ** Presentation: [GameBoard] (lines 481-571), [ButtonLegend] (lines 641-678)

    [GameView] (lines 25-101) computes the colours and the two boxes with the
    same code. *)

(** [getPlayerColor] and [getPlayerBorder]; [isPressed] is the function of
    the gamepad hook. *)
Definition getPlayerColor (isPressed : Btn.GamepadButtonName -> bool)
    : String.string :=
  if isPressed Btn.y then "#22c55e"%string
  else if isPressed Btn.b then "#ef4444"%string
  else "#3b82f6"%string.

Definition getPlayerBorder (isPressed : Btn.GamepadButtonName -> bool)
    : String.string :=
  if isPressed Btn.y then "#15803d"%string
  else if isPressed Btn.b then "#b91c1c"%string
  else "#1d4ed8"%string.

(** The inline style of the target view; its width and height are
    [TARGET_SIZE] (style sheet, lines 750-752). *)
Module TargetStyle.

Record t := { left : R; top : R }.

End TargetStyle.

Definition targetStyle (target : Point.t) : TargetStyle.t :=
  {| TargetStyle.left := Point.x target - TARGET_SIZE / 2;
     TargetStyle.top := Point.y target - TARGET_SIZE / 2 |}.

(** The inline style of the player view; its width and height are
    [PLAYER_SIZE] (style sheet, lines 739-741).  [rotate] is the number of
    degrees that the source prints into the string [`${rotation}deg`]. *)
Module PlayerStyle.

Record t := {
  left : R;
  top : R;
  backgroundColor : String.string;
  borderColor : String.string;
  rotate : R;
  scale : R
}.

End PlayerStyle.

Definition playerStyle (isPressed : Btn.GamepadButtonName -> bool)
    (player : PlayerState.t) : PlayerStyle.t :=
  {| PlayerStyle.left := PlayerState.x player - PLAYER_SIZE / 2;
     PlayerStyle.top := PlayerState.y player - PLAYER_SIZE / 2;
     PlayerStyle.backgroundColor := getPlayerColor isPressed;
     PlayerStyle.borderColor := getPlayerBorder isPressed;
     PlayerStyle.rotate := PlayerState.rotation player;
     PlayerStyle.scale :=
       PlayerState.scale player * (if isPressed Btn.a then 1.2 else 1) |}.

(** A box of the given side at [(left, top)] lies on the board. *)
Definition on_board (boardSize side left top : R) : Prop :=
  0 <= left /\ left + side <= boardSize /\ 0 <= top /\ top + side <= boardSize.

(** The stick indicators of [ButtonLegend] (lines 643-646). *)
Definition isLeftStickActive (axes : Axes) : bool :=
  if Rgt_dec (hypot (nullish (leftX axes) 0) (nullish (leftY axes) 0)) 0.1
  then true else false.

Definition isRightStickActive (axes : Axes) : bool :=
  if Rgt_dec (hypot (nullish (rightX axes) 0) (nullish (rightY axes) 0)) 0.1
  then true else false.

(** [BUTTONS] (lines 220-238). *)
Definition BUTTONS : list Btn.GamepadButtonName :=
  [Btn.a; Btn.b; Btn.x; Btn.y; Btn.lb; Btn.rb; Btn.lt; Btn.rt; Btn.back;
   Btn.start; Btn.ls; Btn.rs; Btn.dpadUp; Btn.dpadDown; Btn.dpadLeft;
   Btn.dpadRight; Btn.home].

(** The string a button name is. *)
Definition button_key (name : Btn.GamepadButtonName) : String.string :=
  match name with
  | Btn.a => "a" | Btn.b => "b" | Btn.x => "x" | Btn.y => "y"
  | Btn.lb => "lb" | Btn.rb => "rb" | Btn.lt => "lt" | Btn.rt => "rt"
  | Btn.back => "back" | Btn.start => "start" | Btn.ls => "ls" | Btn.rs => "rs"
  | Btn.dpadUp => "dpadUp" | Btn.dpadDown => "dpadDown"
  | Btn.dpadLeft => "dpadLeft" | Btn.dpadRight => "dpadRight"
  | Btn.home => "home"
  end%string.

(** [toUpperCase] on ASCII text. *)
Definition upper_ascii (c : Ascii.ascii) : Ascii.ascii :=
  let n := Ascii.nat_of_ascii c in
  if andb (Nat.leb 97 n) (Nat.leb n 122) then Ascii.ascii_of_nat (n - 32) else c.

Fixpoint toUpperCase (s : String.string) : String.string :=
  match s with
  | String.EmptyString => String.EmptyString
  | String.String c rest => String.String (upper_ascii c) (toUpperCase rest)
  end.

(** A pill of the legend: a [StickPill] (lines 680-698), lit with the style
    of sticks, or the view of a button, lit with the style of buttons. *)
Inductive Pill : Type :=
  | StickPill (label : String.string) (active : bool)
  | ButtonPill (label : String.string) (active : bool).

Definition pill_label (p : Pill) : String.string :=
  match p with StickPill label _ | ButtonPill label _ => label end.

(** What [ButtonLegend] renders (lines 641-678): the two stick pills, then
    the pills of [BUTTONS.map]. *)
Definition ButtonLegend (pressed : ButtonSet) (axes : Axes) : list Pill :=
  let isLeftStickActive := isLeftStickActive axes in
  let isRightStickActive := isRightStickActive axes in
  StickPill "L-STICK"%string isLeftStickActive
  :: StickPill "R-STICK"%string isRightStickActive
  :: map (fun key => let active := has pressed key in
                     ButtonPill (toUpperCase (button_key key)) active) BUTTONS.

(** The controller line of the HUD: [info?.id || "No controller"] (line 402)
    shown when connected (lines 535-537).  [info] is the hook's description
    of the controller, if any, and holds its [id]. *)
Definition infoName (info : option String.string) : String.string :=
  match info with
  | Some (String.String c rest) => String.String c rest
  | Some String.EmptyString => "No controller"%string
  | None => "No controller"%string
  end.

Definition controllerLabel (connected : bool) (infoName : String.string)
    : String.string :=
  if connected then infoName else "Connect a controller"%string.

(** ** Invariants of the game loop *)

(** The target is inside the margin, the ref mirrors the state, and the
    generator is the one given at mount after some draws. *)
Definition target_ok (boardSize : R) (g : Random) (h : Home) : Prop :=
  in_margin boardSize (target h)
  /\ targetRef h = target h
  /\ exists n : nat, random h = advance n g.

(** The scale is within its limits. *)
Definition scale_ok (p : PlayerState.t) : Prop :=
  0.5 <= PlayerState.scale p <= 2.5.

(** The frame [f] delivered at another time. *)
Definition at_time (t : R) (f : Frame) : Frame :=
  {| timestamp := t; pressedButtons := pressedButtons f; axes := axes f |}.

(** * Properties *)

(** ** Arithmetic of the helpers *)

(** Evaluates [has] on a literal set of buttons. *)
Ltac eval_has :=
  repeat match goal with
    | |- context [has ?s ?n] =>
        let v := eval vm_compute in (has s n) in change (has s n) with v
    end.

Ltac split_minmax :=
  unfold clamp, Rmin, Rmax in *; repeat destruct (Rle_dec _ _); try lra.

Lemma clamp_between (v lo hi : R) : lo <= hi -> lo <= clamp v lo hi <= hi.
Proof. intros Hle. split_minmax. Qed.

Lemma clamp_inside (v lo hi : R) : lo <= v <= hi -> clamp v lo hi = v.
Proof. intros Hv. split_minmax. Qed.

Lemma clamp_nonexpansive (u v lo hi : R) :
  lo <= hi -> Rabs (clamp u lo hi - clamp v lo hi) <= Rabs (u - v).
Proof.
  intros Hle. unfold Rabs.
  destruct (Rcase_abs (u - v)); destruct (Rcase_abs (clamp u lo hi - clamp v lo hi));
    split_minmax.
Qed.

Lemma hypot_nonneg (u v : R) : 0 <= hypot u v.
Proof. unfold hypot. apply sqrt_pos. Qed.

Lemma hypot_square (u v : R) : hypot u v * hypot u v = u * u + v * v.
Proof. unfold hypot. apply sqrt_sqrt. nra. Qed.

Lemma hypot_le (u v r : R) : 0 <= r -> u * u + v * v <= r * r -> hypot u v <= r.
Proof.
  intros Hr Hsq. unfold hypot.
  rewrite <- (sqrt_square r Hr). apply sqrt_le_1_alt. exact Hsq.
Qed.

Lemma hypot_gt (u v r : R) : 0 <= r -> r * r < u * u + v * v -> r < hypot u v.
Proof.
  intros Hr Hsq. unfold hypot.
  rewrite <- (sqrt_square r Hr). apply sqrt_lt_1_alt. nra.
Qed.

Lemma hypot_0_0 : hypot 0 0 = 0.
Proof. unfold hypot. replace (0 * 0 + 0 * 0) with 0 by ring. apply sqrt_0. Qed.

Lemma boardSize_of_range (width : R) : 260 <= boardSize_of width <= 420.
Proof. unfold boardSize_of. split_minmax. Qed.

(** The divisor of [getInputVector] is at least one. *)
Lemma magnitude_ge_1 (u v : R) : 1 <= Rmax 1 (hypot u v).
Proof. apply Rmax_l. Qed.

(** The vector [getInputVector] returns is no longer than one. *)
Lemma getInputVector_unit (axes : Axes) (pressed : ButtonSet) :
  hypot (Point.x (getInputVector axes pressed))
        (Point.y (getInputVector axes pressed)) <= 1.
Proof.
  unfold getInputVector. cbv zeta. cbn [Point.x Point.y].
  set (u := clamp _ _ _). set (v := clamp _ _ _).
  set (m := Rmax 1 (hypot u v)).
  assert (Hm1 : 1 <= m) by apply Rmax_l.
  assert (Hmh : hypot u v <= m) by apply Rmax_r.
  assert (Hh0 : 0 <= hypot u v) by apply hypot_nonneg.
  assert (Hsq : u * u + v * v <= m * m).
  { rewrite <- hypot_square. nra. }
  apply hypot_le; [lra|].
  replace (u / m * (u / m) + v / m * (v / m)) with ((u * u + v * v) / (m * m))
    by (field; lra).
  apply Rmult_le_reg_r with (m * m); [nra|].
  unfold Rdiv. rewrite Rmult_assoc, Rinv_l by nra. lra.
Qed.

(** Each component of that vector is between -1 and 1. *)
Lemma hypot_component (u v : R) : Rabs u <= hypot u v.
Proof.
  assert (H0 : 0 <= hypot u v) by apply hypot_nonneg.
  assert (Hs := hypot_square u v).
  unfold Rabs. destruct (Rcase_abs u); nra.
Qed.

Lemma getInputVector_components (axes : Axes) (pressed : ButtonSet) :
  Rabs (Point.x (getInputVector axes pressed)) <= 1
  /\ Rabs (Point.y (getInputVector axes pressed)) <= 1.
Proof.
  assert (H := getInputVector_unit axes pressed).
  split.
  - eapply Rle_trans; [apply hypot_component | exact H].
  - eapply Rle_trans; [| exact H].
    unfold hypot. rewrite Rplus_comm. apply hypot_component.
Qed.

(** ** The position of the player *)

Lemma nextPlayer_in_bounds (boardSize : R) (axes : Axes) (pressed : ButtonSet)
    (dt : R) (prev : PlayerState.t) :
  PLAYER_SIZE <= boardSize ->
  in_bounds boardSize (nextPlayer boardSize axes pressed dt prev).
Proof.
  intros Hb. unfold nextPlayer, in_bounds.
  destruct (movement axes pressed dt) as [dx dy]. cbn [PlayerState.x PlayerState.y].
  split; apply clamp_between; lra.
Qed.

Lemma step_player (boardSize : R) (vibrate : bool) (f : Frame) (h : Home) :
  player (fst (step boardSize vibrate f h))
  = nextPlayer boardSize (axes f) (pressedButtons f)
      (elapsed (lastFrame h) (timestamp f)) (player h).
Proof.
  unfold step. destruct (collision _ _); [destruct (spawnTarget _ _ _)|]; reflexivity.
Qed.

Lemma run_cons (boardSize : R) (vibrate : bool) (f : Frame) (rest : list Frame)
    (h : Home) :
  fst (run boardSize vibrate (f :: rest) h)
  = fst (run boardSize vibrate rest (fst (step boardSize vibrate f h))).
Proof.
  cbn [run]. destruct (step boardSize vibrate f h) as [h1 e1]. cbn [fst].
  destruct (run boardSize vibrate rest h1); reflexivity.
Qed.

Lemma mount_player (boardSize : R) (g : Random) :
  player (mount boardSize g)
  = {| PlayerState.x := boardSize / 2; PlayerState.y := boardSize / 2;
       PlayerState.rotation := 0; PlayerState.scale := 1 |}.
Proof. unfold mount. destruct (randomPoint boardSize g); reflexivity. Qed.

Lemma run_in_bounds (boardSize : R) (vibrate : bool) (frames : list Frame) :
  PLAYER_SIZE <= boardSize ->
  forall h : Home,
    in_bounds boardSize (player h) ->
    in_bounds boardSize (player (fst (run boardSize vibrate frames h))).
Proof.
  intros Hb. induction frames as [|f rest IH]; intros h Hh.
  - exact Hh.
  - rewrite run_cons. apply IH. rewrite step_player.
    apply nextPlayer_in_bounds, Hb.
Qed.

(** C1.  Whatever the window width, the previous state and the frame's
    inputs, the player position a step produces lies in the board inset by
    half the player's size on both axes; so does the position after any
    number of frames from the state at mount. *)
Theorem position_stays_in_bounds (width : R) (vibrate : bool) :
  let boardSize := boardSize_of width in
  (forall (f : Frame) (h : Home),
      in_bounds boardSize (player (fst (step boardSize vibrate f h))))
  /\ (forall (frames : list Frame) (g : Random),
        in_bounds boardSize
          (player (fst (run boardSize vibrate frames (mount boardSize g))))).
Proof.
  intros boardSize.
  assert (Hb : PLAYER_SIZE <= boardSize).
  { unfold boardSize, PLAYER_SIZE. pose proof (boardSize_of_range width). lra. }
  split.
  - intros f h. rewrite step_player. apply nextPlayer_in_bounds, Hb.
  - intros frames g. apply run_in_bounds; [exact Hb|].
    rewrite mount_player. unfold in_bounds. cbn [PlayerState.x PlayerState.y].
    unfold boardSize, PLAYER_SIZE in *. pose proof (boardSize_of_range width). lra.
Qed.

(** C2.  For every axis snapshot, entries present or not, and every set of
    pressed buttons, the vector [getInputVector] returns has Euclidean
    magnitude at most 1. *)
Theorem input_vector_magnitude_le_1 (axes : Axes) (pressed : ButtonSet) :
  let v := getInputVector axes pressed in
  sqrt (Point.x v * Point.x v + Point.y v * Point.y v) <= 1.
Proof. intros v. apply (getInputVector_unit axes pressed). Qed.

(** ** The movement vector *)

Lemma clamp_unit_clamp (v : R) : clamp v (-1) 1 = clamp_unit v.
Proof.
  unfold clamp_unit. destruct (Rlt_dec v (-1)); [|destruct (Rlt_dec 1 v)]; split_minmax.
Qed.

Lemma dpad_axis_one_if (p n : bool) (s : R) :
  s + one_if p - one_if n = s + dpad_axis p n.
Proof. unfold dpad_axis, one_if. destruct p, n; lra. Qed.

Lemma getInputVector_refines_spec (axes : Axes) (pressed : ButtonSet) :
  getInputVector axes pressed = movement_vector_spec axes pressed.
Proof.
  unfold getInputVector, movement_vector_spec, nullish, hypot. cbv zeta.
  rewrite !dpad_axis_one_if, !clamp_unit_clamp. reflexivity.
Qed.

Lemma hypot_unit (u v : R) : u * u + v * v = 1 -> hypot u v = 1.
Proof. intros H. unfold hypot. rewrite H. apply sqrt_1. Qed.

(** A single pad direction on its own gives a vector of length one. *)
Lemma single_dpad_unit (d : Btn.GamepadButtonName) :
  In d [Btn.dpadRight; Btn.dpadLeft; Btn.dpadDown; Btn.dpadUp] ->
  hypot (Point.x (getInputVector no_axes [d]))
        (Point.y (getInputVector no_axes [d])) = 1.
Proof.
  intros Hd.
  assert (Hc1 : clamp (0 + 1 - 0) (-1) 1 = 1) by split_minmax.
  assert (Hc0 : clamp (0 + 0 - 0) (-1) 1 = 0) by split_minmax.
  assert (Hcm : clamp (0 + 0 - 1) (-1) 1 = -1) by split_minmax.
  assert (Hm : Rmax 1 1 = 1) by (apply Rmax_left; lra).
  assert (H10 : 1 / 1 = 1) by field.
  assert (H00 : 0 / 1 = 0) by field.
  assert (Hn0 : -1 / 1 = -1) by field.
  cbn [In] in Hd.
  destruct Hd as [<-|[<-|[<-|[<-|[]]]]];
    unfold getInputVector; cbn [no_axes leftX leftY nullish];
    cbv zeta; cbn [Point.x Point.y]; eval_has; cbn [one_if].
  all: rewrite ?Hc1, ?Hc0, ?Hcm.
  all: match goal with
       | |- context [Rmax 1 (hypot ?u ?v)] =>
           rewrite (hypot_unit u v) by lra
       end.
  all: rewrite Hm, ?H10, ?H00, ?Hn0; apply hypot_unit; lra.
Qed.

(** C3.  [getInputVector] is the vector of the specification: on each axis
    the stick value plus +1 for the positive pad direction and -1 for the
    negative one, clamped to [-1, 1], then both components divided by
    max(1, hypot(x, y)).  Hence no combination of stick and pad moves faster
    than a single pad direction does, whose vector has length exactly 1. *)
Theorem getInputVector_as_specified (axes : Axes) (pressed : ButtonSet) :
  getInputVector axes pressed = movement_vector_spec axes pressed
  /\ forall d : Btn.GamepadButtonName,
       In d [Btn.dpadRight; Btn.dpadLeft; Btn.dpadDown; Btn.dpadUp] ->
       hypot (Point.x (getInputVector axes pressed))
             (Point.y (getInputVector axes pressed))
       <= hypot (Point.x (getInputVector no_axes [d]))
                (Point.y (getInputVector no_axes [d])).
Proof.
  split.
  - apply getInputVector_refines_spec.
  - intros d Hd. rewrite (single_dpad_unit d Hd). apply getInputVector_unit.
Qed.

(** ** Collision, target and score *)

Lemma collision_true (next : PlayerState.t) (t : Point.t) :
  collision next t = true <-> distance next t <= hit_radius next.
Proof.
  unfold collision, hit_radius. cbv zeta.
  destruct (Rle_dec _ _) as [Hle|Hgt]; split; intros H;
    try reflexivity; try assumption; try discriminate; contradiction.
Qed.

Lemma collision_false (next : PlayerState.t) (t : Point.t) :
  collision next t = false <-> distance next t > hit_radius next.
Proof.
  unfold collision, hit_radius. cbv zeta.
  destruct (Rle_dec _ _) as [Hle|Hgt]; split; intros H;
    try reflexivity; try discriminate; lra.
Qed.

(** The two branches of a step. *)
Lemma step_hit (boardSize : R) (vibrate : bool) (f : Frame) (h : Home) :
  let next := nextPlayer boardSize (axes f) (pressedButtons f)
                (elapsed (lastFrame h) (timestamp f)) (player h) in
  collision next (targetRef h) = true ->
  step boardSize vibrate f h
  = ({| player := next;
        target := fst (spawnTarget boardSize next (random h));
        score := (score h + 1)%Z;
        targetRef := fst (spawnTarget boardSize next (random h));
        lastFrame := Some (timestamp f);
        random := snd (spawnTarget boardSize next (random h)) |},
     if vibrate then [Vibrate 60 0.7] else []).
Proof.
  intros next Hc. unfold step. fold next. rewrite Hc.
  destruct (spawnTarget boardSize next (random h)); reflexivity.
Qed.

Lemma step_miss (boardSize : R) (vibrate : bool) (f : Frame) (h : Home) :
  let next := nextPlayer boardSize (axes f) (pressedButtons f)
                (elapsed (lastFrame h) (timestamp f)) (player h) in
  collision next (targetRef h) = false ->
  step boardSize vibrate f h
  = ({| player := next;
        target := target h;
        score := score h;
        targetRef := targetRef h;
        lastFrame := Some (timestamp f);
        random := random h |},
     []).
Proof. intros next Hc. unfold step. fold next. rewrite Hc. reflexivity. Qed.

Lemma step_score (boardSize : R) (vibrate : bool) (f : Frame) (h : Home) :
  score (fst (step boardSize vibrate f h))
  = (score h
     + if collision (player (fst (step boardSize vibrate f h))) (targetRef h)
       then 1 else 0)%Z.
Proof.
  rewrite step_player.
  destruct (collision _ _) eqn:Hc.
  - rewrite step_hit by exact Hc. reflexivity.
  - rewrite step_miss by exact Hc. cbn [fst score]. lia.
Qed.

(** C4.  A step registers a hit, counting it in the score and replacing the
    target, if and only if the Euclidean distance sqrt(dx * dx + dy * dy)
    from the next player position to the current target, which is what
    [distance] computes, is at most
    (PLAYER_SIZE * next.scale + TARGET_SIZE) / 2; a distance equal to that
    threshold is a hit. *)
Theorem collision_iff_distance_le_threshold
    (boardSize : R) (vibrate : bool) (f : Frame) (h : Home) :
  let h' := fst (step boardSize vibrate f h) in
  let next := player h' in
  let dx := PlayerState.x next - Point.x (targetRef h) in
  let dy := PlayerState.y next - Point.y (targetRef h) in
  let dist := sqrt (dx * dx + dy * dy) in
  let threshold := (PLAYER_SIZE * PlayerState.scale next + TARGET_SIZE) / 2 in
  distance next (targetRef h) = dist
  /\ (collision next (targetRef h) = true <-> dist <= threshold)
  /\ (score h' = (score h + 1)%Z <-> dist <= threshold)
  /\ (dist <= threshold ->
      targetRef h' = fst (spawnTarget boardSize next (random h))
      /\ target h' = targetRef h')
  /\ (dist = threshold -> score h' = (score h + 1)%Z).
Proof.
  intros h' next dx dy dist threshold.
  assert (Hdist : distance next (targetRef h) = dist) by reflexivity.
  split; [exact Hdist|].
  assert (Hct : collision next (targetRef h) = true <-> dist <= threshold).
  { rewrite <- Hdist. apply collision_true. }
  assert (Hs : score h' = (score h + 1)%Z <-> dist <= threshold).
  { unfold h'. rewrite step_score. fold h' next. rewrite <- Hct.
    destruct (collision next (targetRef h)); split; intros H;
      try reflexivity; try discriminate; lia. }
  split; [exact Hct|]. split; [exact Hs|]. split.
  - intros Hd. apply Hct in Hd. unfold next, h' in Hd. rewrite step_player in Hd.
    unfold next, h'. rewrite step_player, (step_hit _ _ _ _ Hd). cbn [fst targetRef target].
    split; reflexivity.
  - intros Heq. apply Hs. lra.
Qed.

Lemma run_score_mono (boardSize : R) (vibrate : bool) (frames : list Frame) :
  forall h : Home,
    (score h <= score (fst (run boardSize vibrate frames h))
             <= score h + Z.of_nat (length frames))%Z.
Proof.
  induction frames as [|f rest IH]; intros h.
  - cbn. lia.
  - rewrite run_cons. specialize (IH (fst (step boardSize vibrate f h))).
    rewrite step_score in IH. cbn [length].
    destruct (collision _ _); lia.
Qed.

(** C6.  A step adds exactly 1 to the score when the collision condition
    holds and leaves it unchanged otherwise, so never more than 1 per frame;
    over any sequence of frames the score does not decrease, and neither
    does it along the way. *)
Theorem score_increments_by_one_per_hit
    (boardSize : R) (vibrate : bool) (h : Home) :
  (forall f : Frame,
      let h' := fst (step boardSize vibrate f h) in
      let next := player h' in
      (distance next (targetRef h) <= hit_radius next ->
       score h' = (score h + 1)%Z)
      /\ (distance next (targetRef h) > hit_radius next -> score h' = score h)
      /\ (score h <= score h' <= score h + 1)%Z)
  /\ (forall frames more : list Frame,
        (score h <= score (fst (run boardSize vibrate frames h)))%Z
        /\ (score (fst (run boardSize vibrate frames h))
            <= score (fst (run boardSize vibrate (frames ++ more) h)))%Z).
Proof.
  split.
  - intros f h' next. unfold h'. rewrite step_score. fold h' next.
    repeat split.
    + intros Hd. apply collision_true in Hd. rewrite Hd. reflexivity.
    + intros Hd. apply collision_false in Hd. rewrite Hd. lia.
    + destruct (collision _ _); lia.
    + destruct (collision _ _); lia.
  - intros frames more. split.
    + apply run_score_mono.
    + revert h. induction frames as [|f rest IH]; intros h.
      * cbn [app]. apply run_score_mono.
      * cbn [app]. rewrite !run_cons. apply IH.
Qed.

(** ** Neutral input *)

Lemma getInputVector_neutral (axes : Axes) :
  nullish (leftX axes) 0 = 0 -> nullish (leftY axes) 0 = 0 ->
  getInputVector axes [] = {| Point.x := 0; Point.y := 0 |}.
Proof.
  intros Hx Hy. unfold getInputVector. rewrite Hx, Hy. cbv zeta.
  eval_has. cbn [one_if].
  replace (clamp (0 + 0 - 0) (-1) 1) with 0 by split_minmax.
  rewrite hypot_0_0. replace (Rmax 1 0) with 1 by split_minmax.
  replace (0 / 1) with 0 by field. reflexivity.
Qed.

Lemma nextPlayer_neutral (boardSize : R) (axes : Axes) (dt : R)
    (prev : PlayerState.t) :
  nullish (leftX axes) 0 = 0 -> nullish (leftY axes) 0 = 0 ->
  nextPlayer boardSize axes [] dt prev
  = {| PlayerState.x :=
         clamp (PlayerState.x prev) (PLAYER_SIZE / 2) (boardSize - PLAYER_SIZE / 2);
       PlayerState.y :=
         clamp (PlayerState.y prev) (PLAYER_SIZE / 2) (boardSize - PLAYER_SIZE / 2);
       PlayerState.rotation := PlayerState.rotation prev;
       PlayerState.scale := PlayerState.scale prev |}.
Proof.
  intros Hx Hy. unfold nextPlayer, movement, newRotation, newScale.
  rewrite (getInputVector_neutral axes Hx Hy). cbv zeta. cbn [Point.x Point.y].
  eval_has. f_equal; f_equal; ring.
Qed.

(** The sample state does not move on a neutral frame, and is far from its
    target. *)
Lemma sample_home_neutral_next (t : R) :
  nextPlayer 260 no_axes [] (elapsed (Some 0) t) (player sample_home)
  = player sample_home.
Proof.
  rewrite nextPlayer_neutral by reflexivity.
  cbn [sample_home player PlayerState.x PlayerState.y PlayerState.rotation
       PlayerState.scale].
  unfold PLAYER_SIZE. rewrite !clamp_inside by lra. reflexivity.
Qed.

Lemma sample_home_far :
  distance (player sample_home) (targetRef sample_home)
  > hit_radius (player sample_home).
Proof.
  unfold distance, hit_radius, PLAYER_SIZE, TARGET_SIZE.
  cbn [sample_home player targetRef getX getY PlayerState_XY Point_XY
       PlayerState.x PlayerState.y PlayerState.scale Point.x Point.y].
  apply Rlt_gt, hypot_gt; lra.
Qed.

(** C10.  When the collision condition does not hold for the next player
    (its distance to the target exceeds the threshold), the step leaves the
    target, the ref that mirrors it and the score as they were, draws no
    random number and calls no vibration: of player, target and score only
    the player is updated. *)
Theorem miss_updates_only_player
    (boardSize : R) (vibrate : bool) (f : Frame) (h : Home) :
  let h' := fst (step boardSize vibrate f h) in
  let next := player h' in
  distance next (targetRef h)
    > (PLAYER_SIZE * PlayerState.scale next + TARGET_SIZE) / 2 ->
  target h' = target h
  /\ targetRef h' = targetRef h
  /\ score h' = score h
  /\ random h' = random h
  /\ snd (step boardSize vibrate f h) = []
  /\ next = nextPlayer boardSize (axes f) (pressedButtons f)
              (elapsed (lastFrame h) (timestamp f)) (player h).
Proof.
  intros h' next Hd. apply collision_false in Hd.
  unfold next, h' in *. rewrite step_player in Hd.
  rewrite (step_miss _ _ _ _ Hd). cbn [fst snd target targetRef score random player].
  repeat split; reflexivity.
Qed.

Lemma miss_updates_only_player_witness :
  target (fst (step 260 true (neutral_frame 16) sample_home))
    = target sample_home
  /\ targetRef (fst (step 260 true (neutral_frame 16) sample_home))
    = targetRef sample_home
  /\ score (fst (step 260 true (neutral_frame 16) sample_home))
    = score sample_home
  /\ random (fst (step 260 true (neutral_frame 16) sample_home))
    = random sample_home
  /\ snd (step 260 true (neutral_frame 16) sample_home) = []
  /\ player (fst (step 260 true (neutral_frame 16) sample_home))
    = nextPlayer 260 (axes (neutral_frame 16)) (pressedButtons (neutral_frame 16))
        (elapsed (lastFrame sample_home) (timestamp (neutral_frame 16)))
        (player sample_home).
Proof.
  apply (miss_updates_only_player 260 true (neutral_frame 16) sample_home).
  rewrite step_player.
  cbn [neutral_frame axes pressedButtons timestamp].
  change (lastFrame sample_home) with (Some 0).
  rewrite sample_home_neutral_next. exact sample_home_far.
Defined.

(** ** Elapsed time, scale and displacement *)

Lemma elapsed_range (last : option R) (t : R) :
  nullish last t <= t -> 0 <= elapsed last t <= 0.05.
Proof.
  intros Hm. unfold elapsed. cbv zeta.
  assert (0 <= (t - nullish last t) / 1000) by lra.
  split_minmax.
Qed.

Lemma elapsed_first_frame (t : R) : elapsed None t = 0.
Proof.
  unfold elapsed. cbn [nullish]. replace ((t - t) / 1000) with 0 by lra.
  split_minmax.
Qed.

Lemma step_lastFrame (boardSize : R) (vibrate : bool) (f : Frame) (h : Home) :
  lastFrame (fst (step boardSize vibrate f h)) = Some (timestamp f).
Proof.
  unfold step. destruct (collision _ _); [destruct (spawnTarget _ _ _)|]; reflexivity.
Qed.

Lemma newScale_range (pressed : ButtonSet) (dt : R) (prev : PlayerState.t) :
  0 <= dt ->
  0.5 <= PlayerState.scale prev <= 2.5 ->
  0.5 <= newScale pressed dt prev <= 2.5.
Proof.
  intros Hdt Hs. unfold newScale. cbv zeta.
  destruct (has pressed Btn.lt), (has pressed Btn.rt); split_minmax.
Qed.

Lemma step_scale (boardSize : R) (vibrate : bool) (f : Frame) (h : Home) :
  PlayerState.scale (player (fst (step boardSize vibrate f h)))
  = newScale (pressedButtons f) (elapsed (lastFrame h) (timestamp f)) (player h).
Proof.
  rewrite step_player. unfold nextPlayer.
  destruct (movement _ _ _). reflexivity.
Qed.

Lemma run_scale_range (boardSize : R) (vibrate : bool) (frames : list Frame) :
  forall h : Home,
    monotone_clock (lastFrame h) frames ->
    0.5 <= PlayerState.scale (player h) <= 2.5 ->
    0.5 <= PlayerState.scale (player (fst (run boardSize vibrate frames h))) <= 2.5.
Proof.
  induction frames as [|f rest IH]; intros h Hclock Hs.
  - exact Hs.
  - destruct Hclock as [Hf Hrest]. rewrite run_cons. apply IH.
    + rewrite step_lastFrame. exact Hrest.
    + rewrite step_scale. apply newScale_range; [|exact Hs].
      apply elapsed_range, Hf.
Qed.

(** C7.  On a frame not earlier than the last one, a scale in [0.5, 2.5]
    stays in [0.5, 2.5]: with only lt held it drops by 2 per second but not
    below 0.5, with only rt held it grows by 2 per second but not above 2.5,
    with neither it is unchanged.  So, from the scale 1 at mount, the scale is
    in [0.5, 2.5] after any sequence of frames whose timestamps do not
    decrease, whatever buttons are held in them. *)
Theorem scale_stays_in_range (boardSize : R) (vibrate : bool) :
  (forall (f : Frame) (h : Home),
      nullish (lastFrame h) (timestamp f) <= timestamp f ->
      0.5 <= PlayerState.scale (player h) <= 2.5 ->
      let dt := elapsed (lastFrame h) (timestamp f) in
      let s := PlayerState.scale (player h) in
      let s' := PlayerState.scale (player (fst (step boardSize vibrate f h))) in
      0.5 <= s' <= 2.5
      /\ (has (pressedButtons f) Btn.lt = true ->
          has (pressedButtons f) Btn.rt = false ->
          s' = Rmax 0.5 (s - 2 * dt) /\ 0.5 <= s' <= s)
      /\ (has (pressedButtons f) Btn.lt = false ->
          has (pressedButtons f) Btn.rt = true ->
          s' = Rmin 2.5 (s + 2 * dt) /\ s <= s' <= 2.5)
      /\ (has (pressedButtons f) Btn.lt = false ->
          has (pressedButtons f) Btn.rt = false ->
          s' = s))
  /\ (forall (frames : list Frame) (g : Random),
        monotone_clock None frames ->
        PlayerState.scale (player (mount boardSize g)) = 1
        /\ 0.5 <= PlayerState.scale
                    (player (fst (run boardSize vibrate frames (mount boardSize g))))
               <= 2.5).
Proof.
  split.
  - intros f h Hm Hs dt s s'.
    assert (Hdt : 0 <= dt <= 0.05) by (apply elapsed_range, Hm).
    unfold s'. rewrite step_scale. fold dt.
    split; [apply newScale_range; [lra | exact Hs]|].
    unfold newScale. cbv zeta. fold s.
    split; [|split]; intros Hlt Hrt; rewrite Hlt, Hrt.
    all: unfold s; try reflexivity; split; split_minmax.
  - intros frames g Hclock.
    assert (Hl : lastFrame (mount boardSize g) = None).
    { unfold mount. destruct (randomPoint boardSize g); reflexivity. }
    assert (H1 : PlayerState.scale (player (mount boardSize g)) = 1).
    { rewrite mount_player. reflexivity. }
    split; [exact H1|].
    apply run_scale_range.
    + rewrite Hl. exact Hclock.
    + rewrite H1. lra.
Qed.

Lemma scale_stays_in_range_witness :
  (0.5 <= PlayerState.scale
            (player (fst (step 260 true (button_frame 16 [Btn.lt]) sample_home)))
       <= 2.5)
  /\ (0.5 <= PlayerState.scale
               (player (fst (run 260 true
                               [button_frame 0 [Btn.rt]; button_frame 16 [Btn.rt];
                                button_frame 1000 [Btn.lt; Btn.rt]]
                               (mount 260 (constant_draws 0)))))
          <= 2.5).
Proof.
  split.
  - refine (proj1 (proj1 (scale_stays_in_range 260 true)
                     (button_frame 16 [Btn.lt]) sample_home _ _)).
    + cbn. lra.
    + cbn. lra.
  - refine (proj2 (proj2 (scale_stays_in_range 260 true)
                     [button_frame 0 [Btn.rt]; button_frame 16 [Btn.rt];
                      button_frame 1000 [Btn.lt; Btn.rt]]
                     (constant_draws 0) _)).
    cbn. lra.
Defined.

Lemma currentSpeed_range (pressed : ButtonSet) :
  0 < currentSpeed pressed <= 240 * 2.5.
Proof.
  unfold currentSpeed, BASE_SPEED. cbv zeta.
  destruct (has pressed Btn.x); lra.
Qed.

Lemma scaled_component_bound (c speed dt : R) :
  Rabs c <= 1 -> 0 <= speed -> 0 <= dt <= 0.05 ->
  Rabs (c * speed * dt) <= speed * 0.05.
Proof.
  intros Hc Hs Hdt.
  rewrite !Rabs_mult, (Rabs_pos_eq speed), (Rabs_pos_eq dt) by lra.
  assert (Hc0 : 0 <= Rabs c) by apply Rabs_pos.
  assert (Hsd : 0 <= speed * dt <= speed * 0.05) by nra.
  rewrite Rmult_assoc. set (m := speed * dt) in *. nra.
Qed.

Lemma movement_bound (axes : Axes) (pressed : ButtonSet) (dt : R) :
  0 <= dt <= 0.05 ->
  Rabs (fst (movement axes pressed dt)) <= currentSpeed pressed * 0.05
  /\ Rabs (snd (movement axes pressed dt)) <= currentSpeed pressed * 0.05.
Proof.
  intros Hdt. unfold movement. cbv zeta. cbn [fst snd].
  destruct (getInputVector_components axes pressed) as [Hx Hy].
  pose proof (currentSpeed_range pressed).
  split; apply scaled_component_bound; lra.
Qed.

Lemma step_position (boardSize : R) (vibrate : bool) (f : Frame) (h : Home) :
  let d := movement (axes f) (pressedButtons f)
             (elapsed (lastFrame h) (timestamp f)) in
  let next := player (fst (step boardSize vibrate f h)) in
  PlayerState.x next
    = clamp (PlayerState.x (player h) + fst d)
        (PLAYER_SIZE / 2) (boardSize - PLAYER_SIZE / 2)
  /\ PlayerState.y next
    = clamp (PlayerState.y (player h) + snd d)
        (PLAYER_SIZE / 2) (boardSize - PLAYER_SIZE / 2).
Proof.
  intros d next. unfold next. rewrite step_player. unfold nextPlayer. fold d.
  destruct d as [dx dy]. split; reflexivity.
Qed.

Lemma clamped_move_bound (v d lo hi : R) :
  lo <= v <= hi -> Rabs (clamp (v + d) lo hi - v) <= Rabs d.
Proof.
  intros Hv.
  rewrite <- (clamp_inside v lo hi Hv) at 2.
  eapply Rle_trans; [apply clamp_nonexpansive; lra|].
  replace (v + d - v) with d by ring. apply Rle_refl.
Qed.

(** C8.  The elapsed time of a step is min((timestamp - lastTimestamp) / 1000,
    0.05) seconds, the last timestamp being the one the previous step stored
    (and the frame's own on the first frame, which makes it 0), so it is at
    most 50 ms.  For a frame not earlier than the last one, each of the
    offsets dx, dy that the step adds to the position before clamping is at
    most speed * 0.05 in absolute value, which is at most 240 * 2.5 * 0.05 = 30;
    a player inside the board is displaced by no more than that. *)
Theorem elapsed_capped_bounds_step
    (boardSize : R) (vibrate : bool) (f : Frame) (h : Home) :
  nullish (lastFrame h) (timestamp f) <= timestamp f ->
  let dt := elapsed (lastFrame h) (timestamp f) in
  let speed := currentSpeed (pressedButtons f) in
  let d := movement (axes f) (pressedButtons f) dt in
  let prev := player h in
  let next := player (fst (step boardSize vibrate f h)) in
  (forall last : R,
      lastFrame h = Some last -> dt = Rmin ((timestamp f - last) / 1000) 0.05)
  /\ (lastFrame h = None -> dt = 0)
  /\ lastFrame (fst (step boardSize vibrate f h)) = Some (timestamp f)
  /\ dt <= 0.05
  /\ PlayerState.x next
       = clamp (PlayerState.x prev + fst d)
           (PLAYER_SIZE / 2) (boardSize - PLAYER_SIZE / 2)
  /\ PlayerState.y next
       = clamp (PlayerState.y prev + snd d)
           (PLAYER_SIZE / 2) (boardSize - PLAYER_SIZE / 2)
  /\ Rabs (fst d) <= speed * 0.05
  /\ Rabs (snd d) <= speed * 0.05
  /\ speed * 0.05 <= 240 * 2.5 * 0.05
  /\ 240 * 2.5 * 0.05 = 30
  /\ (in_bounds boardSize prev ->
      Rabs (PlayerState.x next - PlayerState.x prev) <= speed * 0.05
      /\ Rabs (PlayerState.y next - PlayerState.y prev) <= speed * 0.05).
Proof.
  intros Hm dt speed d prev next.
  assert (Hdt : 0 <= dt <= 0.05) by (apply elapsed_range, Hm).
  destruct (movement_bound (axes f) (pressedButtons f) dt Hdt) as [Hdx Hdy].
  destruct (step_position boardSize vibrate f h) as [Hx Hy].
  fold dt d next prev in Hx, Hy, Hdx, Hdy. fold speed in Hdx, Hdy.
  pose proof (currentSpeed_range (pressedButtons f)) as Hsp. fold speed in Hsp.
  split; [intros last Hl; unfold dt; rewrite Hl; reflexivity|].
  split; [intros Hl; unfold dt; rewrite Hl; apply elapsed_first_frame|].
  split; [apply step_lastFrame|].
  split; [lra|].
  split; [exact Hx|]. split; [exact Hy|].
  split; [exact Hdx|]. split; [exact Hdy|].
  split; [lra|]. split; [lra|].
  intros [Hbx Hby]. rewrite Hx, Hy. split.
  - eapply Rle_trans; [apply clamped_move_bound; exact Hbx | exact Hdx].
  - eapply Rle_trans; [apply clamped_move_bound; exact Hby | exact Hdy].
Qed.

Lemma elapsed_capped_bounds_step_witness :
  Rabs (fst (movement (axes (button_frame 5000 [Btn.x; Btn.dpadRight]))
                      (pressedButtons (button_frame 5000 [Btn.x; Btn.dpadRight]))
                      (elapsed (lastFrame sample_home) 5000)))
  <= currentSpeed [Btn.x; Btn.dpadRight] * 0.05.
Proof.
  refine (proj1 (proj2 (proj2 (proj2 (proj2 (proj2 (proj2
    (elapsed_capped_bounds_step 260 true
       (button_frame 5000 [Btn.x; Btn.dpadRight]) sample_home _)))))))).
  cbn. lra.
Defined.

(** ** Spawning a target *)

Lemma randomPoint_eq (boardSize : R) (g : Random) :
  randomPoint boardSize g
  = ({| Point.x := draws g (cursor g) * (boardSize - PLAYER_SIZE - PLAYER_SIZE)
                   + PLAYER_SIZE;
        Point.y := draws g (S (cursor g)) * (boardSize - PLAYER_SIZE - PLAYER_SIZE)
                   + PLAYER_SIZE |},
     advance 2 g).
Proof. reflexivity. Qed.

Lemma advance_advance (m n : nat) (g : Random) :
  advance m (advance n g) = advance (m + n) g.
Proof. unfold advance. cbn [draws cursor]. f_equal. lia. Qed.

Lemma advance_0 (g : Random) : advance 0 g = g.
Proof. destruct g. reflexivity. Qed.

Section Spawn.

Variable boardSize : R.
Variable player : PlayerState.t.
Variable g : Random.

(** The samples of this board and generator, and the check against this
    player. *)
Let nth_sample (k : nat) : Point.t := sample boardSize g k.
Let far (p : Point.t) : Prop := far_enough p player.

Lemma sample_succ (k : nat) :
  (1 <= k)%nat ->
  randomPoint boardSize (advance (2 * k) g)
  = (nth_sample (S k), advance (2 * S k) g).
Proof.
  intros Hk. unfold nth_sample, sample.
  replace (2 * (S k - 1))%nat with (2 * k)%nat by lia.
  rewrite (randomPoint_eq boardSize (advance (2 * k) g)) at 1.
  rewrite advance_advance. replace (2 + 2 * k)%nat with (2 * S k)%nat by lia.
  reflexivity.
Qed.

Lemma sample_in_margin (k : nat) :
  2 * PLAYER_SIZE <= boardSize -> unit_draws g ->
  in_margin boardSize (nth_sample k).
Proof.
  intros Hb Hg. unfold nth_sample, sample. rewrite randomPoint_eq. cbn [fst].
  unfold in_margin. cbn [Point.x Point.y advance draws cursor].
  pose proof (Hg (2 * (k - 1) + cursor g)%nat) as H1.
  pose proof (Hg (S (2 * (k - 1) + cursor g))) as H2.
  unfold PLAYER_SIZE in *. split; nra.
Qed.

(** The loop, entered with the [k]-th sample as candidate and [21 - k]
    iterations left: it returns the first sample from the [k]-th to the
    20th that is far enough, and the 21st when there is none. *)
Lemma spawnTarget_loop_result (n : nat) :
  forall k : nat,
    (1 <= k)%nat -> (k + n = 21)%nat ->
    let p := fst (spawnTarget_loop n boardSize player
                    (nth_sample k) (advance (2 * k) g)) in
    (exists j : nat,
        (k <= j <= 20)%nat /\ p = nth_sample j /\ far p
        /\ forall i : nat, (k <= i < j)%nat -> ~ far (nth_sample i))
    \/ ((forall i : nat, (k <= i <= 20)%nat -> ~ far (nth_sample i))
        /\ p = nth_sample 21%nat).
Proof.
  induction n as [|n IH]; intros k Hk Hkn p.
  - right. assert (k = 21%nat) by lia. subst k.
    split; [intros i Hi; lia | reflexivity].
  - unfold p. cbn [spawnTarget_loop].
    destruct (Rgt_dec (distance (nth_sample k) player) 100) as [Hfar|Hnear].
    + left. exists k. cbn [ret fst].
      split; [lia|]. split; [reflexivity|]. split; [exact Hfar|].
      intros i Hi. lia.
    + unfold bind. rewrite (sample_succ k Hk).
      destruct (IH (S k)) as [[j [Hj [Hp [Hf Hbefore]]]]|[Hall Hp]]; [lia | lia | |].
      * left. exists j. split; [lia|]. split; [exact Hp|]. split; [exact Hf|].
        intros i Hi. destruct (Nat.eq_dec i k) as [->|Hne].
        -- exact Hnear.
        -- apply Hbefore. lia.
      * right. split; [|exact Hp].
        intros i Hi. destruct (Nat.eq_dec i k) as [->|Hne].
        -- exact Hnear.
        -- apply Hall. lia.
Qed.

Lemma spawnTarget_result :
  let p := fst (spawnTarget boardSize player g) in
  (exists k : nat,
      (1 <= k <= 20)%nat /\ p = nth_sample k /\ far p
      /\ forall j : nat, (1 <= j < k)%nat -> ~ far (nth_sample j))
  \/ ((forall k : nat, (1 <= k <= 20)%nat -> ~ far (nth_sample k))
      /\ p = nth_sample 21%nat).
Proof.
  intros p. unfold p, spawnTarget, bind.
  assert (H1 : randomPoint boardSize g = (nth_sample 1, advance (2 * 1) g)).
  { unfold nth_sample, sample. cbn [Nat.sub Nat.mul]. rewrite advance_0.
    apply randomPoint_eq. }
  rewrite H1.
  exact (spawnTarget_loop_result 20 1 (le_n 1) eq_refl).
Qed.

(** C5, as amended.  On a board of size at least 2 * PLAYER_SIZE and with
    draws in [0, 1), [spawnTarget] returns a point with both coordinates in
    [PLAYER_SIZE, boardSize - PLAYER_SIZE]; it is the first of the first 20
    samples that is farther than 100 from the player, and when all 20 fail
    the check it is the 21st sample, which is returned unchecked. *)
Theorem spawnTarget_far_or_21st_sample :
  2 * PLAYER_SIZE <= boardSize ->
  unit_draws g ->
  let p := fst (spawnTarget boardSize player g) in
  in_margin boardSize p
  /\ ((exists k : nat,
          (1 <= k <= 20)%nat
          /\ p = sample boardSize g k
          /\ distance p player > 100
          /\ forall j : nat, (1 <= j < k)%nat ->
               ~ distance (sample boardSize g j) player > 100)
      \/ ((forall k : nat, (1 <= k <= 20)%nat ->
             ~ distance (sample boardSize g k) player > 100)
          /\ p = sample boardSize g 21%nat)).
Proof.
  intros Hb Hg p.
  pose proof spawnTarget_result as Hr. cbv zeta in Hr. fold p in Hr.
  split; [|exact Hr].
  destruct Hr as [[k [_ [-> _]]]|[_ ->]]; apply sample_in_margin; assumption.
Qed.

End Spawn.

Lemma unit_draws_stuck : unit_draws stuck_draws.
Proof.
  intros n. cbn [stuck_draws draws]. destruct (Nat.ltb n 40); lra.
Qed.

Lemma unit_draws_constant_0 : unit_draws (constant_draws 0).
Proof. intros n. cbn [constant_draws draws]. lra. Qed.

Lemma stuck_sample_early (k : nat) :
  (1 <= k <= 20)%nat ->
  sample 260 stuck_draws k = {| Point.x := 130; Point.y := 130 |}.
Proof.
  intros Hk. unfold sample. rewrite randomPoint_eq.
  cbn [fst advance draws cursor stuck_draws].
  rewrite !(proj2 (Nat.ltb_lt _ 40)) by lia.
  unfold PLAYER_SIZE. f_equal; lra.
Qed.

Lemma stuck_sample_21 :
  sample 260 stuck_draws 21 = {| Point.x := 173; Point.y := 173 |}.
Proof.
  unfold sample. rewrite randomPoint_eq.
  cbn [fst advance draws cursor stuck_draws].
  rewrite !(proj2 (Nat.ltb_ge _ 40)) by lia.
  unfold PLAYER_SIZE. f_equal; lra.
Qed.

Lemma centre_not_far_from_itself :
  ~ far_enough {| Point.x := 130; Point.y := 130 |} centre_player.
Proof.
  unfold far_enough, distance.
  cbn [getX getY Point_XY PlayerState_XY centre_player Point.x Point.y
       PlayerState.x PlayerState.y].
  replace (130 - 130) with 0 by ring. rewrite hypot_0_0. lra.
Qed.

Lemma centre_not_far_from_173 :
  ~ far_enough {| Point.x := 173; Point.y := 173 |} centre_player.
Proof.
  unfold far_enough, distance.
  cbn [getX getY Point_XY PlayerState_XY centre_player Point.x Point.y
       PlayerState.x PlayerState.y].
  assert (hypot (173 - 130) (173 - 130) <= 100) by (apply hypot_le; lra).
  lra.
Qed.

Lemma stuck_spawn :
  fst (spawnTarget 260 centre_player stuck_draws)
  = {| Point.x := 173; Point.y := 173 |}.
Proof.
  destruct (spawnTarget_result 260 centre_player stuck_draws)
    as [[k [Hk [Hp [Hfar _]]]]|[_ Hp]].
  - exfalso. rewrite Hp, (stuck_sample_early k Hk) in Hfar.
    exact (centre_not_far_from_itself Hfar).
  - rewrite Hp. apply stuck_sample_21.
Qed.

(** C5, counterexample.  On a 260 board with the player in the middle, a
    generator whose first 20 points are (130, 130) and whose 21st is
    (173, 173) makes [spawnTarget] return (173, 173): all 20 checked samples
    fail, and the result is neither farther than 100 from the player nor the
    20th sample.  On a board of size 80 the interval
    [PLAYER_SIZE, boardSize - PLAYER_SIZE] is empty, so no result lies in it. *)
Lemma spawnTarget_not_far_nor_20th :
  (unit_draws stuck_draws
   /\ fst (spawnTarget 260 centre_player stuck_draws)
      = {| Point.x := 173; Point.y := 173 |}
   /\ sample 260 stuck_draws 20 = {| Point.x := 130; Point.y := 130 |}
   /\ ~ spawn_returns_far_or_20th 260 centre_player stuck_draws)
  /\ (unit_draws (constant_draws 0)
      /\ ~ spawn_returns_far_or_20th 80 centre_player (constant_draws 0)).
Proof.
  split; [split; [exact unit_draws_stuck|]; split; [exact stuck_spawn|]; split|split].
  - apply stuck_sample_early. lia.
  - unfold spawn_returns_far_or_20th. cbv zeta. rewrite stuck_spawn.
    intros [_ [Hfar|[_ Heq]]].
    + exact (centre_not_far_from_173 Hfar).
    + rewrite stuck_sample_early in Heq by lia.
      apply (f_equal Point.x) in Heq. cbn [Point.x] in Heq. lra.
  - exact unit_draws_constant_0.
  - unfold spawn_returns_far_or_20th, in_margin, PLAYER_SIZE. cbv zeta.
    intros [[[H1 H2] _] _]. lra.
Qed.

Lemma spawnTarget_far_or_21st_sample_witness :
  in_margin 260 (fst (spawnTarget 260 centre_player stuck_draws))
  /\ ((exists k : nat,
          (1 <= k <= 20)%nat
          /\ fst (spawnTarget 260 centre_player stuck_draws)
             = sample 260 stuck_draws k
          /\ distance (fst (spawnTarget 260 centre_player stuck_draws))
               centre_player > 100
          /\ forall j : nat, (1 <= j < k)%nat ->
               ~ distance (sample 260 stuck_draws j) centre_player > 100)
      \/ ((forall k : nat, (1 <= k <= 20)%nat ->
             ~ distance (sample 260 stuck_draws k) centre_player > 100)
          /\ fst (spawnTarget 260 centre_player stuck_draws)
             = sample 260 stuck_draws 21%nat)).
Proof.
  apply (spawnTarget_far_or_21st_sample 260 centre_player stuck_draws).
  - unfold PLAYER_SIZE. lra.
  - exact unit_draws_stuck.
Defined.

(** ** Neutral input and the window *)

Lemma turbo_right_vector :
  getInputVector no_axes [Btn.x; Btn.dpadRight] = {| Point.x := 1; Point.y := 0 |}.
Proof.
  unfold getInputVector. cbn [no_axes leftX leftY nullish]. cbv zeta.
  eval_has. cbn [one_if].
  replace (clamp (0 + 1 - 0) (-1) 1) with 1 by split_minmax.
  replace (clamp (0 + 0 - 0) (-1) 1) with 0 by split_minmax.
  rewrite (hypot_unit 1 0) by lra.
  replace (Rmax 1 1) with 1 by split_minmax.
  f_equal; field.
Qed.

(** The state of [wide_game]: the player has moved 30 to the right of the
    middle of the 420 board, nothing else happened. *)
Lemma wide_game_state :
  wide_game
  = {| player := {| PlayerState.x := 240; PlayerState.y := 210;
                    PlayerState.rotation := 0; PlayerState.scale := 1 |};
       target := {| Point.x := 44; Point.y := 44 |};
       score := 0%Z;
       targetRef := {| Point.x := 44; Point.y := 44 |};
       lastFrame := Some 50;
       random := advance 2 (constant_draws 0) |}.
Proof.
  unfold wide_game.
  assert (Hmount :
    mount 420 (constant_draws 0)
    = {| player := {| PlayerState.x := 210; PlayerState.y := 210;
                      PlayerState.rotation := 0; PlayerState.scale := 1 |};
         target := {| Point.x := 44; Point.y := 44 |};
         score := 0%Z;
         targetRef := {| Point.x := 44; Point.y := 44 |};
         lastFrame := None;
         random := advance 2 (constant_draws 0) |}).
  { unfold mount. rewrite randomPoint_eq.
    cbn [constant_draws draws cursor]. unfold PLAYER_SIZE.
    replace (0 * (420 - 44 - 44) + 44) with 44 by ring.
    replace (420 / 2) with 210 by field. reflexivity. }
  rewrite Hmount, run_cons.
  (* the idle first frame *)
  rewrite step_miss.
  2:{ cbn [neutral_frame axes pressedButtons timestamp lastFrame player targetRef].
      rewrite nextPlayer_neutral by reflexivity.
      cbn [PlayerState.x PlayerState.y PlayerState.rotation PlayerState.scale].
      unfold PLAYER_SIZE. rewrite !clamp_inside by lra.
      apply collision_false. unfold distance, hit_radius, PLAYER_SIZE, TARGET_SIZE.
      cbn [getX getY PlayerState_XY Point_XY PlayerState.x PlayerState.y
           PlayerState.scale Point.x Point.y].
      apply Rlt_gt, hypot_gt; lra. }
  cbn [fst neutral_frame axes pressedButtons timestamp lastFrame player targetRef
       target score random].
  rewrite nextPlayer_neutral by reflexivity.
  cbn [PlayerState.x PlayerState.y PlayerState.rotation PlayerState.scale].
  unfold PLAYER_SIZE at 1 2 3 4. rewrite !clamp_inside by lra.
  (* the turbo frame *)
  rewrite run_cons.
  assert (Hdt : elapsed (Some 0) 50 = 0.05).
  { unfold elapsed. cbn [nullish]. replace ((50 - 0) / 1000) with 0.05 by lra.
    split_minmax. }
  assert (Hnext :
    nextPlayer 420 no_axes [Btn.x; Btn.dpadRight] 0.05
      {| PlayerState.x := 210; PlayerState.y := 210;
         PlayerState.rotation := 0; PlayerState.scale := 1 |}
    = {| PlayerState.x := 240; PlayerState.y := 210;
         PlayerState.rotation := 0; PlayerState.scale := 1 |}).
  { unfold nextPlayer, movement, newRotation, newScale, currentSpeed.
    rewrite turbo_right_vector. cbv zeta. eval_has.
    cbn [Point.x Point.y PlayerState.x PlayerState.y PlayerState.rotation
         PlayerState.scale].
    unfold PLAYER_SIZE, BASE_SPEED.
    replace (210 + 1 * (240 * 2.5) * 0.05) with 240 by lra.
    replace (210 + 0 * (240 * 2.5) * 0.05) with 210 by lra.
    rewrite !clamp_inside by lra. reflexivity. }
  rewrite step_miss.
  2:{ cbn [button_frame axes pressedButtons timestamp lastFrame player targetRef].
      rewrite Hdt, Hnext.
      apply collision_false. unfold distance, hit_radius, PLAYER_SIZE, TARGET_SIZE.
      cbn [getX getY PlayerState_XY Point_XY PlayerState.x PlayerState.y
           PlayerState.scale Point.x Point.y].
      apply Rlt_gt, hypot_gt; lra. }
  cbn [fst button_frame axes pressedButtons timestamp lastFrame player targetRef
       target score random run].
  rewrite Hdt, Hnext. reflexivity.
Qed.

Lemma step_neutral_player (boardSize : R) (vibrate : bool) (f : Frame) (h : Home) :
  nullish (leftX (axes f)) 0 = 0 ->
  nullish (leftY (axes f)) 0 = 0 ->
  pressedButtons f = [] ->
  player (fst (step boardSize vibrate f h))
  = {| PlayerState.x :=
         clamp (PlayerState.x (player h))
           (PLAYER_SIZE / 2) (boardSize - PLAYER_SIZE / 2);
       PlayerState.y :=
         clamp (PlayerState.y (player h))
           (PLAYER_SIZE / 2) (boardSize - PLAYER_SIZE / 2);
       PlayerState.rotation := PlayerState.rotation (player h);
       PlayerState.scale := PlayerState.scale (player h) |}.
Proof.
  intros Hx Hy Hp. rewrite step_player, Hp. apply nextPlayer_neutral; assumption.
Qed.

(** C9, counterexample.  The game [wide_game] was played on a 420 board
    (window width 452) and left the player at x = 240.  The window shrinks to
    width 292, the board to 260, and the loop restarts.  The next frame has no
    axis entry and no button pressed, and yet moves the player: x becomes
    238, the new right bound. *)
Lemma neutral_step_moves_player_after_resize :
  boardSize_of 452 = 420
  /\ boardSize_of 292 = 260
  /\ getInputVector (axes (neutral_frame 100)) (pressedButtons (neutral_frame 100))
     = {| Point.x := 0; Point.y := 0 |}
  /\ PlayerState.x (player (restart wide_game)) = 240
  /\ PlayerState.x
       (player (fst (step (boardSize_of 292) false (neutral_frame 100)
                       (restart wide_game)))) = 238
  /\ player (fst (step (boardSize_of 292) false (neutral_frame 100)
                    (restart wide_game)))
     <> player (restart wide_game).
Proof.
  assert (H452 : boardSize_of 452 = 420) by (unfold boardSize_of; split_minmax).
  assert (H292 : boardSize_of 292 = 260) by (unfold boardSize_of; split_minmax).
  assert (Hx : PlayerState.x
                 (player (fst (step (boardSize_of 292) false (neutral_frame 100)
                                 (restart wide_game)))) = 238).
  { rewrite step_neutral_player by reflexivity.
    rewrite H292, wide_game_state.
    cbn [restart player PlayerState.x]. unfold PLAYER_SIZE. split_minmax. }
  split; [exact H452|]. split; [exact H292|].
  split; [apply getInputVector_neutral; reflexivity|].
  split; [rewrite wide_game_state; reflexivity|].
  split; [exact Hx|].
  intros Heq. rewrite Heq in Hx. rewrite wide_game_state in Hx.
  cbn [restart player PlayerState.x] in Hx. lra.
Qed.

(** C9, as amended.  When the frame has no (or a zero) leftX and leftY entry
    and no button is pressed, [getInputVector] returns the zero vector and
    the step leaves rotation and scale unchanged; the position is clamped to
    the board, so it is unchanged exactly when it already lies within the
    board bounds.  Nothing can fail: the divisor of the normalisation is at
    least 1 for every input, and every function of the step is total. *)
Theorem neutral_input_keeps_player_in_bounds
    (boardSize : R) (vibrate : bool) (f : Frame) (h : Home) :
  nullish (leftX (axes f)) 0 = 0 ->
  nullish (leftY (axes f)) 0 = 0 ->
  pressedButtons f = [] ->
  let prev := player h in
  let next := player (fst (step boardSize vibrate f h)) in
  getInputVector (axes f) (pressedButtons f) = {| Point.x := 0; Point.y := 0 |}
  /\ PlayerState.rotation next = PlayerState.rotation prev
  /\ PlayerState.scale next = PlayerState.scale prev
  /\ PlayerState.x next
     = clamp (PlayerState.x prev) (PLAYER_SIZE / 2) (boardSize - PLAYER_SIZE / 2)
  /\ PlayerState.y next
     = clamp (PlayerState.y prev) (PLAYER_SIZE / 2) (boardSize - PLAYER_SIZE / 2)
  /\ (in_bounds boardSize prev -> next = prev)
  /\ (PLAYER_SIZE <= boardSize -> next = prev -> in_bounds boardSize prev)
  /\ (forall u v : R, 1 <= Rmax 1 (hypot u v)).
Proof.
  intros Hx Hy Hp prev next.
  assert (Hn := step_neutral_player boardSize vibrate f h Hx Hy Hp).
  fold next prev in Hn.
  split; [rewrite Hp; apply getInputVector_neutral; assumption|].
  rewrite Hn. cbn [PlayerState.x PlayerState.y PlayerState.rotation PlayerState.scale].
  repeat (split; [reflexivity|]).
  split; [|split].
  - intros [Hbx Hby]. rewrite !clamp_inside by assumption.
    destruct prev; reflexivity.
  - intros Hb Heq. rewrite <- Hn in Heq. rewrite <- Heq. unfold next.
    rewrite step_player. apply nextPlayer_in_bounds, Hb.
  - intros u v. apply magnitude_ge_1.
Qed.

Lemma neutral_input_keeps_player_in_bounds_witness :
  getInputVector (axes (neutral_frame 16)) (pressedButtons (neutral_frame 16))
    = {| Point.x := 0; Point.y := 0 |}
  /\ player (fst (step 260 true (neutral_frame 16) sample_home))
     = player sample_home.
Proof.
  pose proof (neutral_input_keeps_player_in_bounds 260 true (neutral_frame 16)
                sample_home eq_refl eq_refl eq_refl) as H.
  cbv zeta in H.
  destruct H as [Hv [_ [_ [_ [_ [Hin _]]]]]].
  split; [exact Hv|]. apply Hin.
  unfold in_bounds, PLAYER_SIZE.
  cbn [sample_home player PlayerState.x PlayerState.y]. lra.
Defined.

(** * Further properties of the helpers *)

(** X1.  When the bounds are given in the wrong order (max below min),
    [clamp] returns max whatever the value is. *)
Theorem clamp_inverted_bounds (value min max : R) :
  max < min -> clamp value min max = max.
Proof. intros Hlt. split_minmax. Qed.

Lemma clamp_inverted_bounds_witness : clamp 100 22 (-2) = -2.
Proof. apply (clamp_inverted_bounds 100 22 (-2)). lra. Defined.

(** X2.  With a draw in [0, 1) and min < max, [randomBetween] returns a
    number in [min, max): min can come out, max cannot.  The generator is
    advanced by exactly one draw. *)
Theorem randomBetween_half_open (min max : R) (g : Random) :
  unit_draws g -> min < max ->
  min <= fst (randomBetween min max g) < max
  /\ snd (randomBetween min max g) = advance 1 g.
Proof.
  intros Hg Hlt. unfold randomBetween, bind, Math_random, ret. cbn [fst snd].
  pose proof (Hg (cursor g)) as Hu.
  split; [split; nra | reflexivity].
Qed.

Lemma randomBetween_half_open_witness :
  44 <= fst (randomBetween 44 216 (constant_draws 0)) < 216
  /\ snd (randomBetween 44 216 (constant_draws 0)) = advance 1 (constant_draws 0).
Proof.
  apply (randomBetween_half_open 44 216 (constant_draws 0)).
  - intros n. cbn [constant_draws draws]. lra.
  - lra.
Defined.

(** X3.  The board size is always between 260 and 420; it is the window
    width less 32 for widths from 292 to 452, and never decreases when the
    window grows. *)
Theorem boardSize_of_window (width width' : R) :
  260 <= boardSize_of width <= 420
  /\ (292 <= width <= 452 -> boardSize_of width = width - 32)
  /\ (width <= 292 -> boardSize_of width = 260)
  /\ (452 <= width -> boardSize_of width = 420)
  /\ (width <= width' -> boardSize_of width <= boardSize_of width').
Proof.
  unfold boardSize_of. repeat split; try intros H; split_minmax.
Qed.

(** The two clamped sums of [getInputVector]. *)
Lemma getInputVector_eq (axes : Axes) (pressed : ButtonSet) :
  let cx := clamp (nullish (leftX axes) 0 + one_if (has pressed Btn.dpadRight)
                     - one_if (has pressed Btn.dpadLeft)) (-1) 1 in
  let cy := clamp (nullish (leftY axes) 0 + one_if (has pressed Btn.dpadDown)
                     - one_if (has pressed Btn.dpadUp)) (-1) 1 in
  getInputVector axes pressed
  = {| Point.x := cx / Rmax 1 (hypot cx cy); Point.y := cy / Rmax 1 (hypot cx cy) |}.
Proof. reflexivity. Qed.

Lemma hypot_div (u v m : R) : 0 < m -> hypot (u / m) (v / m) = hypot u v / m.
Proof.
  intros Hm. unfold hypot.
  replace (u / m * (u / m) + v / m * (v / m)) with ((u * u + v * v) / (m * m))
    by (field; lra).
  rewrite sqrt_div_alt by nra. rewrite (sqrt_square m) by lra. reflexivity.
Qed.

(** X4.  [getInputVector] leaves the clamped stick-plus-pad vector alone
    when it is no longer than 1, and otherwise returns that vector divided by
    its own length, which has length exactly 1 and the same direction: the
    length of the result is min(1, length of the clamped vector). *)
Theorem getInputVector_normalises (axes : Axes) (pressed : ButtonSet) :
  let cx := clamp (nullish (leftX axes) 0 + one_if (has pressed Btn.dpadRight)
                     - one_if (has pressed Btn.dpadLeft)) (-1) 1 in
  let cy := clamp (nullish (leftY axes) 0 + one_if (has pressed Btn.dpadDown)
                     - one_if (has pressed Btn.dpadUp)) (-1) 1 in
  let v := getInputVector axes pressed in
  hypot (Point.x v) (Point.y v) = Rmin 1 (hypot cx cy)
  /\ (hypot cx cy <= 1 -> v = {| Point.x := cx; Point.y := cy |})
  /\ (1 <= hypot cx cy ->
      v = {| Point.x := cx / sqrt (cx * cx + cy * cy);
             Point.y := cy / sqrt (cx * cx + cy * cy) |}
      /\ cx = Point.x v * sqrt (cx * cx + cy * cy)
      /\ cy = Point.y v * sqrt (cx * cx + cy * cy)
      /\ hypot (Point.x v) (Point.y v) = 1).
Proof.
  intros cx cy v. unfold v. rewrite getInputVector_eq. fold cx cy.
  cbn [Point.x Point.y].
  assert (Hh : 0 <= hypot cx cy) by apply hypot_nonneg.
  assert (Hm : 0 < Rmax 1 (hypot cx cy)).
  { pose proof (magnitude_ge_1 cx cy). lra. }
  rewrite hypot_div by exact Hm.
  split; [|split].
  - unfold Rmax, Rmin. destruct (Rle_dec 1 (hypot cx cy)), (Rle_dec 1 (hypot cx cy));
      try contradiction.
    + destruct (Rle_dec 1 (hypot cx cy)); [|contradiction].
      field. lra.
    + field.
  - intros Hle. rewrite (Rmax_left 1 (hypot cx cy)) by exact Hle.
    f_equal; field.
  - intros Hge. rewrite (Rmax_right 1 (hypot cx cy)) by exact Hge.
    change (sqrt (cx * cx + cy * cy)) with (hypot cx cy).
    split; [reflexivity|]. repeat split; field; lra.
Qed.

(** X5.  Opposite pad directions cancel: with dpadLeft and dpadRight both
    held or both released, and the same for dpadUp and dpadDown, the vector
    is the one the stick alone gives. *)
Theorem opposite_dpad_cancel (axes : Axes) (pressed : ButtonSet) :
  has pressed Btn.dpadRight = has pressed Btn.dpadLeft ->
  has pressed Btn.dpadDown = has pressed Btn.dpadUp ->
  getInputVector axes pressed = getInputVector axes [].
Proof.
  intros Hx Hy. rewrite (getInputVector_eq axes []). cbv zeta.
  eval_has. cbn [one_if].
  rewrite getInputVector_eq. cbv zeta. rewrite Hx, Hy.
  replace (nullish (leftX axes) 0 + one_if (has pressed Btn.dpadLeft)
           - one_if (has pressed Btn.dpadLeft))
    with (nullish (leftX axes) 0 + 0 - 0) by ring.
  replace (nullish (leftY axes) 0 + one_if (has pressed Btn.dpadUp)
           - one_if (has pressed Btn.dpadUp))
    with (nullish (leftY axes) 0 + 0 - 0) by ring.
  reflexivity.
Qed.

Lemma opposite_dpad_cancel_witness :
  getInputVector no_axes [Btn.dpadLeft; Btn.dpadRight; Btn.a]
  = getInputVector no_axes [].
Proof.
  apply (opposite_dpad_cancel no_axes [Btn.dpadLeft; Btn.dpadRight; Btn.a]);
    reflexivity.
Defined.

(** * Further properties of spawning and of the game loop *)

Lemma spawnTarget_loop_draws (boardSize : R) (player : PlayerState.t)
    (g : Random) (n : nat) :
  forall k : nat,
    (1 <= k)%nat -> (k + n = 21)%nat ->
    exists j : nat,
      (k <= j <= 21)%nat
      /\ spawnTarget_loop n boardSize player (sample boardSize g k)
           (advance (2 * k) g)
         = (sample boardSize g j, advance (2 * j) g)
      /\ ((j <= 20)%nat -> far_enough (sample boardSize g j) player)
      /\ forall i : nat, (k <= i < j)%nat ->
           ~ far_enough (sample boardSize g i) player.
Proof.
  induction n as [|n IH]; intros k Hk Hkn.
  - exists k. split; [lia|]. split; [reflexivity|]. split; intros; lia.
  - cbn [spawnTarget_loop].
    destruct (Rgt_dec (distance (sample boardSize g k) player) 100) as [Hfar|Hnear].
    + exists k. split; [lia|]. split; [reflexivity|].
      split; [intros _; exact Hfar | intros i Hi; lia].
    + unfold bind. rewrite (sample_succ boardSize g k Hk).
      destruct (IH (S k)) as [j [Hj [Heq [Hfar Hbefore]]]]; [lia | lia |].
      exists j. split; [lia|]. split; [exact Heq|]. split; [exact Hfar|].
      intros i Hi. destruct (Nat.eq_dec i k) as [->|Hne].
      * exact Hnear.
      * apply Hbefore. lia.
Qed.

Lemma spawnTarget_draws (boardSize : R) (player : PlayerState.t) (g : Random) :
  exists k : nat,
    (1 <= k <= 21)%nat
    /\ spawnTarget boardSize player g = (sample boardSize g k, advance (2 * k) g)
    /\ ((k <= 20)%nat -> far_enough (sample boardSize g k) player)
    /\ forall i : nat, (1 <= i < k)%nat ->
         ~ far_enough (sample boardSize g i) player.
Proof.
  unfold spawnTarget, bind.
  assert (H1 : randomPoint boardSize g
               = (sample boardSize g 1, advance (2 * 1) g)).
  { unfold sample. cbn [Nat.sub Nat.mul]. rewrite advance_0. apply randomPoint_eq. }
  rewrite H1.
  destruct (spawnTarget_loop_draws boardSize player g 20 1 (le_n 1) eq_refl)
    as [j [Hj H]].
  exists j. split; [lia | exact H].
Qed.

(** X6.  [spawnTarget] returns the k-th sampled point for some k from 1 to
    21 and leaves the generator advanced by exactly 2k draws, the draws
    themselves untouched: k is the first of the first 20 samples that is
    farther than 100 from the player, or 21 when there is none.  So a call
    takes at least 2 and at most 42 random numbers. *)
Theorem spawnTarget_consumes_2k_draws
    (boardSize : R) (player : PlayerState.t) (g : Random) :
  exists k : nat,
    (1 <= k <= 21)%nat
    /\ fst (spawnTarget boardSize player g) = sample boardSize g k
    /\ draws (snd (spawnTarget boardSize player g)) = draws g
    /\ cursor (snd (spawnTarget boardSize player g)) = (2 * k + cursor g)%nat
    /\ ((k <= 20)%nat -> distance (sample boardSize g k) player > 100)
    /\ forall i : nat, (1 <= i < k)%nat ->
         ~ distance (sample boardSize g i) player > 100.
Proof.
  destruct (spawnTarget_draws boardSize player g) as [k [Hk [Heq [Hfar Hbefore]]]].
  exists k. rewrite Heq. cbn [fst snd advance draws cursor].
  repeat (split; [first [exact Hk | reflexivity | exact Hfar]|]).
  exact Hbefore.
Qed.

Lemma unit_draws_advance (n : nat) (g : Random) :
  unit_draws g -> unit_draws (advance n g).
Proof. intros Hg k. exact (Hg k). Qed.

Lemma mount_eq (boardSize : R) (g : Random) :
  mount boardSize g
  = {| player := {| PlayerState.x := boardSize / 2;
                    PlayerState.y := boardSize / 2;
                    PlayerState.rotation := 0;
                    PlayerState.scale := 1 |};
       target := sample boardSize g 1;
       score := 0%Z;
       targetRef := sample boardSize g 1;
       lastFrame := None;
       random := advance 2 g |}.
Proof.
  unfold mount, sample. cbn [Nat.sub Nat.mul]. rewrite advance_0, randomPoint_eq.
  reflexivity.
Qed.

Lemma step_target_ok (boardSize : R) (vibrate : bool) (g : Random)
    (f : Frame) (h : Home) :
  2 * PLAYER_SIZE <= boardSize -> unit_draws g ->
  target_ok boardSize g h ->
  target_ok boardSize g (fst (step boardSize vibrate f h)).
Proof.
  intros Hb Hg [Hm [Href [n Hn]]].
  destruct (collision
              (nextPlayer boardSize (axes f) (pressedButtons f)
                 (elapsed (lastFrame h) (timestamp f)) (player h))
              (targetRef h)) eqn:Hc.
  - rewrite (step_hit _ _ _ _ Hc). cbn [fst]. unfold target_ok.
    cbn [target targetRef random].
    set (next := nextPlayer _ _ _ _ _).
    destruct (spawnTarget_draws boardSize next (random h)) as [k [Hk [Heq _]]].
    rewrite Heq. cbn [fst snd]. split; [|split; [reflexivity|]].
    + apply sample_in_margin; [exact Hb|]. rewrite Hn.
      apply unit_draws_advance, Hg.
    + exists (2 * k + n)%nat. rewrite Hn. apply advance_advance.
  - rewrite (step_miss _ _ _ _ Hc). cbn [fst]. unfold target_ok.
    cbn [target targetRef random]. split; [exact Hm|]. split; [exact Href|].
    exists n. exact Hn.
Qed.

Lemma run_target_ok (boardSize : R) (vibrate : bool) (g : Random)
    (frames : list Frame) :
  2 * PLAYER_SIZE <= boardSize -> unit_draws g ->
  target_ok boardSize g (fst (run boardSize vibrate frames (mount boardSize g))).
Proof.
  intros Hb Hg.
  assert (Hgen : forall h, target_ok boardSize g h ->
                   target_ok boardSize g (fst (run boardSize vibrate frames h))).
  { induction frames as [|f rest IH]; intros h Hh.
    - exact Hh.
    - rewrite run_cons. apply IH, step_target_ok; assumption. }
  apply Hgen. rewrite mount_eq. unfold target_ok. cbn [target targetRef random].
  split; [apply sample_in_margin; assumption|].
  split; [reflexivity|]. exists 2%nat. reflexivity.
Qed.

(** X7.  On a board of size at least 2 * PLAYER_SIZE and with draws in
    [0, 1), after any number of frames from mount the target has both
    coordinates in [PLAYER_SIZE, boardSize - PLAYER_SIZE], [targetRef] holds
    the same point as the [target] state, and the generator is the initial
    one some draws further. *)
Theorem target_stays_in_margin
    (boardSize : R) (vibrate : bool) (g : Random) (frames : list Frame) :
  2 * PLAYER_SIZE <= boardSize ->
  unit_draws g ->
  let h := fst (run boardSize vibrate frames (mount boardSize g)) in
  in_margin boardSize (target h)
  /\ targetRef h = target h
  /\ exists n : nat, random h = advance n g.
Proof. intros Hb Hg. exact (run_target_ok boardSize vibrate g frames Hb Hg). Qed.

Lemma target_stays_in_margin_witness :
  in_margin 260
    (target (fst (run 260 true [neutral_frame 0; button_frame 16 [Btn.dpadUp]]
                    (mount 260 stuck_draws))))
  /\ targetRef (fst (run 260 true [neutral_frame 0; button_frame 16 [Btn.dpadUp]]
                       (mount 260 stuck_draws)))
     = target (fst (run 260 true [neutral_frame 0; button_frame 16 [Btn.dpadUp]]
                      (mount 260 stuck_draws)))
  /\ exists n : nat,
       random (fst (run 260 true [neutral_frame 0; button_frame 16 [Btn.dpadUp]]
                      (mount 260 stuck_draws)))
       = advance n stuck_draws.
Proof.
  apply (target_stays_in_margin 260 true stuck_draws
           [neutral_frame 0; button_frame 16 [Btn.dpadUp]]).
  - unfold PLAYER_SIZE. lra.
  - exact unit_draws_stuck.
Defined.

Lemma step_effects (boardSize : R) (vibrate : bool) (f : Frame) (h : Home) :
  snd (step boardSize vibrate f h)
  = if andb vibrate (collision (player (fst (step boardSize vibrate f h)))
                       (targetRef h))
    then [Vibrate 60 0.7] else [].
Proof.
  rewrite step_player.
  destruct (collision _ _) eqn:Hc.
  - rewrite (step_hit _ _ _ _ Hc). cbn [snd]. destruct vibrate; reflexivity.
  - rewrite (step_miss _ _ _ _ Hc). cbn [snd]. destruct vibrate; reflexivity.
Qed.

Lemma step_state_ignores_vibrate (boardSize : R) (f : Frame) (h : Home) :
  fst (step boardSize true f h) = fst (step boardSize false f h).
Proof.
  unfold step. destruct (collision _ _); [destruct (spawnTarget _ _ _)|]; reflexivity.
Qed.

Lemma run_snd_cons (boardSize : R) (vibrate : bool) (f : Frame)
    (rest : list Frame) (h : Home) :
  snd (run boardSize vibrate (f :: rest) h)
  = snd (step boardSize vibrate f h)
    ++ snd (run boardSize vibrate rest (fst (step boardSize vibrate f h))).
Proof.
  cbn [run]. destruct (step boardSize vibrate f h) as [h1 e1]. cbn [fst snd].
  destruct (run boardSize vibrate rest h1); reflexivity.
Qed.

(** X8.  Over any sequence of frames from any state: when the bridge offers
    vibration, every effect emitted is the pulse [vibrate(60, 0.7)] and there
    are exactly as many as points scored; when it does not, nothing is
    emitted; and the game state is the same in both cases. *)
Theorem one_pulse_per_point (boardSize : R) (frames : list Frame) (h : Home) :
  Forall (fun e => e = Vibrate 60 0.7) (snd (run boardSize true frames h))
  /\ Z.of_nat (length (snd (run boardSize true frames h)))
     = (score (fst (run boardSize true frames h)) - score h)%Z
  /\ snd (run boardSize false frames h) = []
  /\ fst (run boardSize true frames h) = fst (run boardSize false frames h).
Proof.
  revert h. induction frames as [|f rest IH]; intros h.
  - cbn. repeat split; [constructor | lia].
  - destruct (IH (fst (step boardSize true f h))) as [Hall [Hlen [Hnone Hsame]]].
    rewrite !run_snd_cons, !run_cons, !step_effects.
    rewrite <- step_state_ignores_vibrate.
    pose proof (step_score boardSize true f h) as Hs.
    destruct (collision (player (fst (step boardSize true f h))) (targetRef h)).
    + cbn [andb app length]. repeat split.
      * constructor; [reflexivity | exact Hall].
      * rewrite Nat2Z.inj_succ, Hlen. lia.
      * exact Hnone.
      * exact Hsame.
    + cbn [andb app]. repeat split.
      * exact Hall.
      * rewrite Hlen. lia.
      * exact Hnone.
      * exact Hsame.
Qed.

Lemma step_random (boardSize : R) (vibrate : bool) (f : Frame) (h : Home) :
  exists n : nat,
    random (fst (step boardSize vibrate f h)) = advance n (random h)
    /\ (2 * (score (fst (step boardSize vibrate f h)) - score h)
        <= Z.of_nat n
        <= 42 * (score (fst (step boardSize vibrate f h)) - score h))%Z.
Proof.
  destruct (collision
              (nextPlayer boardSize (axes f) (pressedButtons f)
                 (elapsed (lastFrame h) (timestamp f)) (player h))
              (targetRef h)) eqn:Hc.
  - rewrite (step_hit _ _ _ _ Hc). cbn [fst random score].
    set (next := nextPlayer _ _ _ _ _).
    destruct (spawnTarget_draws boardSize next (random h)) as [k [Hk [Heq _]]].
    exists (2 * k)%nat. rewrite Heq. cbn [snd]. split; [reflexivity | lia].
  - rewrite (step_miss _ _ _ _ Hc). cbn [fst random score].
    exists 0%nat. rewrite advance_0. split; [reflexivity | lia].
Qed.

(** X9.  The game loop only ever moves the generator forward, by 2 to 42
    draws for each point scored: frames without a hit draw nothing, and the
    draws themselves are never altered. *)
Theorem draws_per_point (boardSize : R) (vibrate : bool)
    (frames : list Frame) (h : Home) :
  exists n : nat,
    random (fst (run boardSize vibrate frames h)) = advance n (random h)
    /\ (2 * (score (fst (run boardSize vibrate frames h)) - score h)
        <= Z.of_nat n
        <= 42 * (score (fst (run boardSize vibrate frames h)) - score h))%Z.
Proof.
  revert h. induction frames as [|f rest IH]; intros h.
  - exists 0%nat. cbn [run fst]. rewrite advance_0. split; [reflexivity | lia].
  - rewrite run_cons.
    destruct (step_random boardSize vibrate f h) as [n1 [H1 B1]].
    destruct (IH (fst (step boardSize vibrate f h))) as [n2 [H2 B2]].
    exists (n2 + n1)%nat. rewrite H2, H1, advance_advance.
    split; [reflexivity | lia].
Qed.

Lemma nextPlayer_dt_0 (boardSize : R) (axes : Axes) (pressed : ButtonSet)
    (prev : PlayerState.t) :
  in_bounds boardSize prev -> scale_ok prev ->
  nextPlayer boardSize axes pressed 0 prev = prev.
Proof.
  intros [Hx Hy] Hs. unfold scale_ok in Hs.
  unfold nextPlayer, movement, newRotation, newScale. cbv zeta.
  rewrite !Rmult_0_r, !Rplus_0_r, !Rminus_0_r.
  rewrite !clamp_inside by assumption.
  destruct prev as [px py pr ps].
  cbn [PlayerState.x PlayerState.y PlayerState.rotation PlayerState.scale] in *.
  f_equal.
  - destruct (has pressed Btn.lb), (has pressed Btn.rb); reflexivity.
  - destruct (has pressed Btn.lt), (has pressed Btn.rt); split_minmax.
Qed.

(** X10.  The first frame after the loop started (no last frame recorded)
    has elapsed time 0: whatever is pressed, a player inside the board with a
    scale in [0.5, 2.5] stays exactly as it is, and the frame's timestamp is
    recorded. *)
Theorem first_frame_keeps_player
    (boardSize : R) (vibrate : bool) (f : Frame) (h : Home) :
  lastFrame h = None ->
  in_bounds boardSize (player h) ->
  0.5 <= PlayerState.scale (player h) <= 2.5 ->
  elapsed (lastFrame h) (timestamp f) = 0
  /\ player (fst (step boardSize vibrate f h)) = player h
  /\ lastFrame (fst (step boardSize vibrate f h)) = Some (timestamp f).
Proof.
  intros Hl Hb Hs.
  assert (Hdt : elapsed (lastFrame h) (timestamp f) = 0).
  { rewrite Hl. apply elapsed_first_frame. }
  split; [exact Hdt|]. split; [|apply step_lastFrame].
  rewrite step_player, Hdt. apply nextPlayer_dt_0; assumption.
Qed.

Lemma first_frame_keeps_player_witness :
  elapsed (lastFrame (restart sample_home))
    (timestamp (button_frame 7000 [Btn.x; Btn.dpadLeft; Btn.rb; Btn.lt])) = 0
  /\ player (fst (step 260 true
                    (button_frame 7000 [Btn.x; Btn.dpadLeft; Btn.rb; Btn.lt])
                    (restart sample_home)))
     = player (restart sample_home)
  /\ lastFrame (fst (step 260 true
                       (button_frame 7000 [Btn.x; Btn.dpadLeft; Btn.rb; Btn.lt])
                       (restart sample_home)))
     = Some (timestamp (button_frame 7000 [Btn.x; Btn.dpadLeft; Btn.rb; Btn.lt])).
Proof.
  apply (first_frame_keeps_player 260 true
           (button_frame 7000 [Btn.x; Btn.dpadLeft; Btn.rb; Btn.lt])
           (restart sample_home)).
  - reflexivity.
  - unfold in_bounds, PLAYER_SIZE.
    cbn [restart sample_home player PlayerState.x PlayerState.y]. lra.
  - cbn [restart sample_home player PlayerState.scale]. lra.
Defined.

Lemma elapsed_stalled (last t : R) : last + 50 <= t -> elapsed (Some last) t = 0.05.
Proof.
  intros Ht. unfold elapsed. cbn [nullish].
  assert (0.05 <= (t - last) / 1000) by lra.
  split_minmax.
Qed.

Lemma step_depends_on_dt (boardSize : R) (vibrate : bool) (f f' : Frame) (h : Home) :
  pressedButtons f = pressedButtons f' -> axes f = axes f' ->
  elapsed (lastFrame h) (timestamp f) = elapsed (lastFrame h) (timestamp f') ->
  step boardSize vibrate f h
  = (let h' := fst (step boardSize vibrate f' h) in
     {| player := player h'; target := target h'; score := score h';
        targetRef := targetRef h'; lastFrame := Some (timestamp f);
        random := random h' |},
     snd (step boardSize vibrate f' h)).
Proof.
  intros Hp Ha Hdt. unfold step. rewrite Hp, Ha, Hdt.
  destruct (collision _ _); [destruct (spawnTarget _ _ _)|]; reflexivity.
Qed.

(** X11.  A frame that arrives 50 ms or more after the last one is handled
    exactly as if it had arrived 50 ms after it: same player, target, score,
    generator and effects; only the recorded timestamp is the frame's own. *)
Theorem stalled_frame_counts_as_50ms
    (boardSize : R) (vibrate : bool) (f : Frame) (h : Home) (last : R) :
  lastFrame h = Some last ->
  last + 50 <= timestamp f ->
  let h' := fst (step boardSize vibrate f h) in
  let h50 := fst (step boardSize vibrate (at_time (last + 50) f) h) in
  elapsed (lastFrame h) (timestamp f) = 0.05
  /\ player h' = player h50
  /\ target h' = target h50
  /\ targetRef h' = targetRef h50
  /\ score h' = score h50
  /\ random h' = random h50
  /\ snd (step boardSize vibrate f h)
     = snd (step boardSize vibrate (at_time (last + 50) f) h)
  /\ lastFrame h' = Some (timestamp f).
Proof.
  intros Hl Ht h' h50.
  assert (Hdt : elapsed (lastFrame h) (timestamp f) = 0.05).
  { rewrite Hl. apply elapsed_stalled, Ht. }
  assert (Heq := step_depends_on_dt boardSize vibrate f (at_time (last + 50) f) h
                   eq_refl eq_refl).
  cbv zeta in Heq. unfold h', h50. rewrite Heq.
  - cbn [fst snd player target targetRef score random lastFrame].
    repeat split; try reflexivity. exact Hdt.
  - rewrite Hdt, Hl. cbn [at_time timestamp]. symmetry. apply elapsed_stalled. lra.
Qed.

Lemma stalled_frame_counts_as_50ms_witness :
  player (fst (step 260 true (button_frame 9000 [Btn.dpadRight]) sample_home))
  = player (fst (step 260 true (at_time (0 + 50) (button_frame 9000 [Btn.dpadRight]))
                   sample_home)).
Proof.
  refine (proj1 (proj2
    (stalled_frame_counts_as_50ms 260 true (button_frame 9000 [Btn.dpadRight])
       sample_home 0 eq_refl _))).
  cbn [button_frame timestamp]. lra.
Defined.

Lemma step_rotation (boardSize : R) (vibrate : bool) (f : Frame) (h : Home) :
  PlayerState.rotation (player (fst (step boardSize vibrate f h)))
  = newRotation (pressedButtons f) (elapsed (lastFrame h) (timestamp f)) (player h).
Proof.
  rewrite step_player. unfold nextPlayer.
  destruct (movement _ _ _). reflexivity.
Qed.

(** X12.  On a frame not earlier than the last one the rotation changes by
    200 degrees per second: down with only lb held, up with only rb held, not
    at all with both or neither; so by at most 10 degrees per frame.  It is
    never wrapped or clamped. *)
Theorem rotation_rate (boardSize : R) (vibrate : bool) (f : Frame) (h : Home) :
  nullish (lastFrame h) (timestamp f) <= timestamp f ->
  let dt := elapsed (lastFrame h) (timestamp f) in
  let r := PlayerState.rotation (player h) in
  let r' := PlayerState.rotation (player (fst (step boardSize vibrate f h))) in
  r' = r - 200 * dt * one_if (has (pressedButtons f) Btn.lb)
         + 200 * dt * one_if (has (pressedButtons f) Btn.rb)
  /\ (has (pressedButtons f) Btn.lb = has (pressedButtons f) Btn.rb -> r' = r)
  /\ Rabs (r' - r) <= 10.
Proof.
  intros Hm dt r r'.
  assert (Hdt : 0 <= dt <= 0.05) by (apply elapsed_range, Hm).
  unfold r'. rewrite step_rotation. fold dt. unfold newRotation. cbv zeta. fold r.
  unfold one_if.
  destruct (has (pressedButtons f) Btn.lb), (has (pressedButtons f) Btn.rb).
  all: split; [ring|]; split; [intros Heq; try discriminate; ring|].
  all: unfold Rabs; match goal with |- context [Rcase_abs ?e] => destruct (Rcase_abs e) end; lra.
Qed.

Lemma rotation_rate_witness :
  Rabs (PlayerState.rotation
          (player (fst (step 260 true (button_frame 16 [Btn.rb]) sample_home)))
        - PlayerState.rotation (player sample_home)) <= 10.
Proof.
  refine (proj2 (proj2
    (rotation_rate 260 true (button_frame 16 [Btn.rb]) sample_home _))).
  cbn. lra.
Defined.

(** X13.  With lt and rt held together on a frame not earlier than the last
    one, a scale in [0.5, 2.5] never shrinks: it is unchanged when there is
    room to shrink by 2 * dt above 0.5, and otherwise it ends at 0.5 + 2 * dt,
    because the shrink is clipped at 0.5 before the growth is added. *)
Theorem both_triggers_never_shrink
    (boardSize : R) (vibrate : bool) (f : Frame) (h : Home) :
  nullish (lastFrame h) (timestamp f) <= timestamp f ->
  0.5 <= PlayerState.scale (player h) <= 2.5 ->
  has (pressedButtons f) Btn.lt = true ->
  has (pressedButtons f) Btn.rt = true ->
  let dt := elapsed (lastFrame h) (timestamp f) in
  let s := PlayerState.scale (player h) in
  let s' := PlayerState.scale (player (fst (step boardSize vibrate f h))) in
  s <= s' <= 2.5
  /\ (0.5 <= s - 2 * dt -> s' = s)
  /\ (s - 2 * dt < 0.5 -> s' = 0.5 + 2 * dt).
Proof.
  intros Hm Hs Hlt Hrt dt s s'.
  assert (Hdt : 0 <= dt <= 0.05) by (apply elapsed_range, Hm).
  unfold s'. rewrite step_scale. fold dt. unfold newScale. cbv zeta.
  rewrite Hlt, Hrt. fold s. fold s in Hs.
  split; [|split]; try intros Hroom; split_minmax.
Qed.

Lemma both_triggers_never_shrink_witness :
  PlayerState.scale (player sample_home)
  <= PlayerState.scale
       (player (fst (step 260 true (button_frame 16 [Btn.lt; Btn.rt]) sample_home)))
  <= 2.5.
Proof.
  refine (proj1
    (both_triggers_never_shrink 260 true (button_frame 16 [Btn.lt; Btn.rt])
       sample_home _ _ eq_refl eq_refl)).
  - cbn. lra.
  - cbn. lra.
Defined.

(** The vector of the pad's right direction alone. *)
Lemma getInputVector_right (axes : Axes) (pressed : ButtonSet) :
  nullish (leftX axes) 0 = 0 -> nullish (leftY axes) 0 = 0 ->
  has pressed Btn.dpadRight = true -> has pressed Btn.dpadLeft = false ->
  has pressed Btn.dpadDown = false -> has pressed Btn.dpadUp = false ->
  getInputVector axes pressed = {| Point.x := 1; Point.y := 0 |}.
Proof.
  intros Hx Hy Hr Hl Hd Hu. rewrite getInputVector_eq. cbv zeta.
  rewrite Hx, Hy, Hr, Hl, Hd, Hu. cbn [one_if].
  replace (clamp (0 + 1 - 0) (-1) 1) with 1 by split_minmax.
  replace (clamp (0 + 0 - 0) (-1) 1) with 0 by split_minmax.
  rewrite (hypot_unit 1 0) by lra.
  replace (Rmax 1 1) with 1 by split_minmax.
  f_equal; field.
Qed.

(** X14.  With the stick at rest and only the pad's right direction held, a
    player inside the board moves right by speed * dt (240 per second, 600
    with turbo), stopping at the right bound boardSize - PLAYER_SIZE / 2; its
    y does not change. *)
Theorem dpad_right_moves_right
    (boardSize : R) (vibrate : bool) (f : Frame) (h : Home) :
  nullish (lastFrame h) (timestamp f) <= timestamp f ->
  in_bounds boardSize (player h) ->
  nullish (leftX (axes f)) 0 = 0 -> nullish (leftY (axes f)) 0 = 0 ->
  has (pressedButtons f) Btn.dpadRight = true ->
  has (pressedButtons f) Btn.dpadLeft = false ->
  has (pressedButtons f) Btn.dpadDown = false ->
  has (pressedButtons f) Btn.dpadUp = false ->
  let dt := elapsed (lastFrame h) (timestamp f) in
  let next := player (fst (step boardSize vibrate f h)) in
  PlayerState.x next
  = Rmin (boardSize - PLAYER_SIZE / 2)
         (PlayerState.x (player h) + currentSpeed (pressedButtons f) * dt)
  /\ PlayerState.y next = PlayerState.y (player h)
  /\ PlayerState.x (player h) <= PlayerState.x next.
Proof.
  intros Hm [Hbx Hby] Hx Hy Hr Hl Hd Hu dt next.
  assert (Hdt : 0 <= dt <= 0.05) by (apply elapsed_range, Hm).
  pose proof (currentSpeed_range (pressedButtons f)) as Hsp.
  assert (Hmove : 0 <= currentSpeed (pressedButtons f) * dt) by nra.
  destruct (step_position boardSize vibrate f h) as [Hnx Hny].
  fold dt next in Hnx, Hny. rewrite Hnx, Hny.
  unfold movement. rewrite (getInputVector_right _ _ Hx Hy Hr Hl Hd Hu).
  cbv zeta. cbn [fst snd Point.x Point.y].
  replace (1 * currentSpeed (pressedButtons f) * dt)
    with (currentSpeed (pressedButtons f) * dt) by ring.
  replace (0 * currentSpeed (pressedButtons f) * dt) with 0 by ring.
  rewrite Rplus_0_r, (clamp_inside (PlayerState.y (player h))) by exact Hby.
  set (m := currentSpeed (pressedButtons f) * dt) in *.
  split; [|split; [reflexivity|]]; split_minmax.
Qed.

Lemma dpad_right_moves_right_witness :
  PlayerState.x (player sample_home)
  <= PlayerState.x
       (player (fst (step 260 true (button_frame 16 [Btn.dpadRight]) sample_home))).
Proof.
  refine (proj2 (proj2
    (dpad_right_moves_right 260 true (button_frame 16 [Btn.dpadRight]) sample_home
       _ _ eq_refl eq_refl eq_refl eq_refl eq_refl eq_refl))).
  - cbn. lra.
  - unfold in_bounds, PLAYER_SIZE.
    cbn [sample_home player PlayerState.x PlayerState.y]. lra.
Defined.

(** ** Reach of one frame *)

Lemma hypot_mono (u v u' v' : R) :
  Rabs u <= Rabs u' -> Rabs v <= Rabs v' -> hypot u v <= hypot u' v'.
Proof.
  intros Hu Hv. unfold hypot. apply sqrt_le_1_alt.
  apply Rsqr_le_abs_1 in Hu. apply Rsqr_le_abs_1 in Hv.
  unfold Rsqr in *. lra.
Qed.

Lemma hypot_triangle (u v u' v' : R) :
  hypot (u + u') (v + v') <= hypot u v + hypot u' v'.
Proof.
  pose proof (hypot_nonneg u v) as H1. pose proof (hypot_nonneg u' v') as H2.
  pose proof (hypot_square u v) as S1. pose proof (hypot_square u' v') as S2.
  set (p := hypot u v) in *. set (q := hypot u' v') in *.
  apply hypot_le; [lra|].
  assert (Hcs : (u * u' + v * v') * (u * u' + v * v') <= (p * q) * (p * q)).
  { replace (p * q * (p * q)) with ((p * p) * (q * q)) by ring.
    rewrite S1, S2.
    pose proof (Rle_0_sqr (u * v' - v * u')) as Hsq. unfold Rsqr in Hsq.
    assert (Hid : (u * u + v * v) * (u' * u' + v' * v')
                  - (u * u' + v * v') * (u * u' + v * v')
                  = (u * v' - v * u') * (u * v' - v * u')) by ring.
    lra. }
  assert (Hpq : 0 <= p * q) by nra.
  assert (Hdot : u * u' + v * v' <= p * q).
  { destruct (Rle_dec (u * u' + v * v') 0) as [Hneg|Hpos]; [lra|].
    apply Rnot_le_lt in Hpos. nra. }
  nra.
Qed.

Lemma distance_sym (p : Point.t) (q : PlayerState.t) :
  distance p q = distance q p.
Proof.
  unfold distance, hypot.
  cbn [getX getY Point_XY PlayerState_XY]. f_equal. ring.
Qed.

Lemma movement_reach (axes : Axes) (pressed : ButtonSet) (dt : R) :
  0 <= dt <= 0.05 ->
  hypot (fst (movement axes pressed dt)) (snd (movement axes pressed dt)) <= 30.
Proof.
  intros Hdt. unfold movement. cbv zeta. cbn [fst snd].
  pose proof (getInputVector_unit axes pressed) as Hu.
  pose proof (hypot_nonneg (Point.x (getInputVector axes pressed))
                (Point.y (getInputVector axes pressed))) as H0.
  pose proof (hypot_square (Point.x (getInputVector axes pressed))
                (Point.y (getInputVector axes pressed))) as Hsq.
  set (ix := Point.x (getInputVector axes pressed)) in *.
  set (iy := Point.y (getInputVector axes pressed)) in *.
  pose proof (currentSpeed_range pressed) as Hsp.
  set (s := currentSpeed pressed) in *.
  assert (Hn : ix * ix + iy * iy <= 1) by nra.
  assert (Hsd : 0 <= s * dt <= 30) by nra.
  apply hypot_le; [lra|].
  replace (ix * s * dt * (ix * s * dt) + iy * s * dt * (iy * s * dt))
    with ((ix * ix + iy * iy) * ((s * dt) * (s * dt))) by ring.
  set (m := s * dt) in *.
  assert (0 <= m * m <= 900) by nra.
  assert (0 <= ix * ix + iy * iy) by nra.
  nra.
Qed.

Lemma step_reach (boardSize : R) (vibrate : bool) (f : Frame) (h : Home) :
  nullish (lastFrame h) (timestamp f) <= timestamp f ->
  in_bounds boardSize (player h) ->
  let next := player (fst (step boardSize vibrate f h)) in
  hypot (PlayerState.x next - PlayerState.x (player h))
        (PlayerState.y next - PlayerState.y (player h)) <= 30.
Proof.
  intros Hm [Hbx Hby] next.
  assert (Hdt := elapsed_range (lastFrame h) (timestamp f) Hm).
  destruct (step_position boardSize vibrate f h) as [Hx Hy].
  fold next in Hx, Hy. rewrite Hx, Hy.
  eapply Rle_trans; [|apply (movement_reach (axes f) (pressedButtons f) _ Hdt)].
  apply hypot_mono; apply clamped_move_bound; assumption.
Qed.

(** X15.  A target more than 100 away from a player inside the board, the
    distance [spawnTarget] looks for, cannot be hit on the next frame: with a
    scale in [0.5, 2.5] the hit radius is at most 68 and the player travels at
    most 30 in a frame, so the frame scores nothing and leaves the target in
    place. *)
Theorem far_target_not_hit_next_frame
    (boardSize : R) (vibrate : bool) (f : Frame) (h : Home) :
  nullish (lastFrame h) (timestamp f) <= timestamp f ->
  in_bounds boardSize (player h) ->
  0.5 <= PlayerState.scale (player h) <= 2.5 ->
  distance (targetRef h) (player h) > 100 ->
  let h' := fst (step boardSize vibrate f h) in
  hit_radius (player h') <= 68
  /\ distance (player h') (targetRef h) >= 70
  /\ score h' = score h
  /\ target h' = target h
  /\ targetRef h' = targetRef h
  /\ snd (step boardSize vibrate f h) = [].
Proof.
  intros Hm Hb Hs Hfar h'.
  assert (Hdt := elapsed_range (lastFrame h) (timestamp f) Hm).
  assert (Hrad : hit_radius (player h') <= 68).
  { unfold hit_radius, h', PLAYER_SIZE, TARGET_SIZE. rewrite step_scale.
    pose proof (newScale_range (pressedButtons f) _ (player h) (proj1 Hdt) Hs).
    lra. }
  assert (Hdist : distance (player h') (targetRef h) >= 70).
  { pose proof (step_reach boardSize vibrate f h Hm Hb) as Hreach.
    cbv zeta in Hreach. fold h' in Hreach.
    rewrite <- distance_sym. rewrite distance_sym in Hfar.
    unfold distance in *.
    cbn [getX getY Point_XY PlayerState_XY] in *.
    pose proof (hypot_triangle
                  (Point.x (targetRef h) - PlayerState.x (player h'))
                  (Point.y (targetRef h) - PlayerState.y (player h'))
                  (PlayerState.x (player h') - PlayerState.x (player h))
                  (PlayerState.y (player h') - PlayerState.y (player h))) as Ht.
    replace (Point.x (targetRef h) - PlayerState.x (player h')
             + (PlayerState.x (player h') - PlayerState.x (player h)))
      with (Point.x (targetRef h) - PlayerState.x (player h)) in Ht by ring.
    replace (Point.y (targetRef h) - PlayerState.y (player h')
             + (PlayerState.y (player h') - PlayerState.y (player h)))
      with (Point.y (targetRef h) - PlayerState.y (player h)) in Ht by ring.
    assert (Hsym : hypot (PlayerState.x (player h) - Point.x (targetRef h))
                         (PlayerState.y (player h) - Point.y (targetRef h))
                   = hypot (Point.x (targetRef h) - PlayerState.x (player h))
                           (Point.y (targetRef h) - PlayerState.y (player h))).
    { unfold hypot. f_equal. ring. }
    lra. }
  split; [exact Hrad|]. split; [exact Hdist|].
  assert (Hc : collision (player h') (targetRef h) = false).
  { apply collision_false. lra. }
  unfold h' in Hc |- *. rewrite step_player in Hc.
  rewrite (step_miss _ _ _ _ Hc). cbn [fst snd score target targetRef].
  repeat split; reflexivity.
Qed.

Lemma far_target_not_hit_next_frame_witness :
  score (fst (step 260 true (button_frame 50 [Btn.x; Btn.dpadLeft; Btn.dpadUp; Btn.rt])
                sample_home))
  = score sample_home.
Proof.
  refine (proj1 (proj2 (proj2
    (far_target_not_hit_next_frame 260 true
       (button_frame 50 [Btn.x; Btn.dpadLeft; Btn.dpadUp; Btn.rt]) sample_home
       _ _ _ _)))).
  - cbn. lra.
  - unfold in_bounds, PLAYER_SIZE.
    cbn [sample_home player PlayerState.x PlayerState.y]. lra.
  - cbn [sample_home player PlayerState.scale]. lra.
  - unfold distance.
    cbn [sample_home player targetRef getX getY Point_XY PlayerState_XY
         Point.x Point.y PlayerState.x PlayerState.y].
    apply Rlt_gt, hypot_gt; lra.
Defined.

(** * Properties of the presentation *)

(** X16.  After any number of frames from mount, for every window width, the
    layout box of the player view (PLAYER_SIZE wide and high, before its
    rotate and scale transform) lies on the board; and when the frame
    timestamps do not decrease, the scale the view is drawn with, which the
    a button enlarges by 1.2, is between 0.5 and 3. *)
Theorem player_view_on_board
    (width : R) (vibrate : bool) (frames : list Frame) (g : Random)
    (isPressed : Btn.GamepadButtonName -> bool) :
  monotone_clock None frames ->
  let boardSize := boardSize_of width in
  let h := fst (run boardSize vibrate frames (mount boardSize g)) in
  let view := playerStyle isPressed (player h) in
  on_board boardSize PLAYER_SIZE (PlayerStyle.left view) (PlayerStyle.top view)
  /\ 0.5 <= PlayerStyle.scale view <= 3
  /\ PlayerStyle.rotate view = PlayerState.rotation (player h).
Proof.
  intros Hclock boardSize h view.
  pose proof (boardSize_of_range width) as Hr. fold boardSize in Hr.
  assert (Hb : in_bounds boardSize (player h)).
  { apply run_in_bounds; [unfold PLAYER_SIZE; lra|].
    rewrite mount_player. unfold in_bounds, PLAYER_SIZE.
    cbn [PlayerState.x PlayerState.y]. lra. }
  assert (Hs : 0.5 <= PlayerState.scale (player h) <= 2.5).
  { apply run_scale_range.
    - rewrite mount_eq. exact Hclock.
    - rewrite mount_player. cbn [PlayerState.scale]. lra. }
  destruct Hb as [Hx Hy]. unfold PLAYER_SIZE in Hx, Hy.
  unfold view, playerStyle, on_board, PLAYER_SIZE.
  cbn [PlayerStyle.left PlayerStyle.top PlayerStyle.scale PlayerStyle.rotate].
  split; [lra|]. split; [|reflexivity].
  destruct (isPressed Btn.a); lra.
Qed.

Lemma player_view_on_board_witness :
  on_board (boardSize_of 400) PLAYER_SIZE
    (PlayerStyle.left
       (playerStyle (has [Btn.a])
          (player (fst (run (boardSize_of 400) true
                          [neutral_frame 0; button_frame 16 [Btn.a; Btn.rt]]
                          (mount (boardSize_of 400) (constant_draws 0)))))))
    (PlayerStyle.top
       (playerStyle (has [Btn.a])
          (player (fst (run (boardSize_of 400) true
                          [neutral_frame 0; button_frame 16 [Btn.a; Btn.rt]]
                          (mount (boardSize_of 400) (constant_draws 0))))))).
Proof.
  refine (proj1
    (player_view_on_board 400 true
       [neutral_frame 0; button_frame 16 [Btn.a; Btn.rt]] (constant_draws 0)
       (has [Btn.a]) _)).
  cbn. lra.
Defined.

(** X17.  With draws in [0, 1), after any number of frames from mount and
    for every window width, the target view (TARGET_SIZE wide and high) lies
    on the board, at least 31 away from each edge. *)
Theorem target_view_on_board
    (width : R) (vibrate : bool) (frames : list Frame) (g : Random) :
  unit_draws g ->
  let boardSize := boardSize_of width in
  let h := fst (run boardSize vibrate frames (mount boardSize g)) in
  let view := targetStyle (target h) in
  on_board boardSize TARGET_SIZE (TargetStyle.left view) (TargetStyle.top view)
  /\ 31 <= TargetStyle.left view
  /\ TargetStyle.left view + TARGET_SIZE <= boardSize - 31
  /\ 31 <= TargetStyle.top view
  /\ TargetStyle.top view + TARGET_SIZE <= boardSize - 31.
Proof.
  intros Hg boardSize h view.
  pose proof (boardSize_of_range width) as Hr. fold boardSize in Hr.
  assert (Hb : 2 * PLAYER_SIZE <= boardSize) by (unfold PLAYER_SIZE; lra).
  destruct (run_target_ok boardSize vibrate g frames Hb Hg) as [[Hx Hy] _].
  fold h in Hx, Hy. unfold PLAYER_SIZE in Hx, Hy.
  unfold view, targetStyle, on_board, TARGET_SIZE.
  cbn [TargetStyle.left TargetStyle.top].
  repeat split; lra.
Qed.

Lemma target_view_on_board_witness :
  31 <= TargetStyle.left
          (targetStyle
             (target (fst (run (boardSize_of 400) true [neutral_frame 0]
                             (mount (boardSize_of 400) stuck_draws))))).
Proof.
  refine (proj1 (proj2
    (target_view_on_board 400 true [neutral_frame 0] stuck_draws _))).
  exact unit_draws_stuck.
Defined.

(** X18.  The fill and the border of the player always come from the same
    one of three pairs: green when y is pressed, whether or not b is, red
    when b is pressed without y, blue otherwise. *)
Theorem player_colours_pair (isPressed : Btn.GamepadButtonName -> bool) :
  (isPressed Btn.y = true ->
   getPlayerColor isPressed = "#22c55e"%string
   /\ getPlayerBorder isPressed = "#15803d"%string)
  /\ (isPressed Btn.y = false -> isPressed Btn.b = true ->
      getPlayerColor isPressed = "#ef4444"%string
      /\ getPlayerBorder isPressed = "#b91c1c"%string)
  /\ (isPressed Btn.y = false -> isPressed Btn.b = false ->
      getPlayerColor isPressed = "#3b82f6"%string
      /\ getPlayerBorder isPressed = "#1d4ed8"%string)
  /\ In (getPlayerColor isPressed, getPlayerBorder isPressed)
        [("#22c55e", "#15803d"); ("#ef4444", "#b91c1c"); ("#3b82f6", "#1d4ed8")]%string.
Proof.
  unfold getPlayerColor, getPlayerBorder.
  destruct (isPressed Btn.y), (isPressed Btn.b); cbn [In];
    repeat split; intros; try discriminate; try reflexivity; auto.
Qed.

Lemma hypot_gt_iff (u v r : R) :
  0 <= r -> (hypot u v > r <-> u * u + v * v > r * r).
Proof.
  intros Hr. split; intros H.
  - pose proof (hypot_square u v). pose proof (hypot_nonneg u v). nra.
  - apply Rlt_gt, hypot_gt; lra.
Qed.

(** X19.  A stick indicator of the legend lights exactly when the square of
    the stick's deflection exceeds 0.01, an absent axis entry counting as 0;
    with both entries of a stick absent it is off. *)
Theorem stick_indicator (axes : Axes) :
  (isLeftStickActive axes = true
   <-> nullish (leftX axes) 0 * nullish (leftX axes) 0
       + nullish (leftY axes) 0 * nullish (leftY axes) 0 > 0.01)
  /\ (isRightStickActive axes = true
      <-> nullish (rightX axes) 0 * nullish (rightX axes) 0
          + nullish (rightY axes) 0 * nullish (rightY axes) 0 > 0.01)
  /\ (leftX axes = None -> leftY axes = None -> isLeftStickActive axes = false)
  /\ (rightX axes = None -> rightY axes = None -> isRightStickActive axes = false).
Proof.
  assert (Hact : forall u v : R,
             (if Rgt_dec (hypot u v) 0.1 then true else false) = true
             <-> u * u + v * v > 0.01).
  { intros u v. replace 0.01 with (0.1 * 0.1) by lra.
    rewrite <- hypot_gt_iff by lra.
    destruct (Rgt_dec (hypot u v) 0.1); split; intros H;
      try reflexivity; try assumption; try discriminate; contradiction. }
  assert (Hoff : (if Rgt_dec (hypot 0 0) 0.1 then true else false) = false).
  { rewrite hypot_0_0. destruct (Rgt_dec 0 0.1); [lra | reflexivity]. }
  unfold isLeftStickActive, isRightStickActive.
  split; [apply Hact|]. split; [apply Hact|].
  split; intros Hx Hy; rewrite Hx, Hy; exact Hoff.
Qed.

(** X20.  [ButtonLegend] renders 19 pills under 19 different labels: first
    the stick pills L-STICK and R-STICK, lit by the left and right stick
    indicators, then for the entries of [BUTTONS] in their order a button
    pill labelled with the name in upper case, highlighted exactly when that
    button is in the pressed set; pressed buttons light no other pill, and
    the axes light no button pill. *)
Theorem legend_sticks_then_buttons (pressed : ButtonSet) (axes : Axes) :
  length (ButtonLegend pressed axes) = 19%nat
  /\ NoDup (map pill_label (ButtonLegend pressed axes))
  /\ firstn 2 (ButtonLegend pressed axes)
     = [StickPill "L-STICK"%string (isLeftStickActive axes);
        StickPill "R-STICK"%string (isRightStickActive axes)]
  /\ (forall i : nat,
        (i < 17)%nat ->
        nth_error (ButtonLegend pressed axes) (2 + i)
        = option_map
            (fun key => ButtonPill (toUpperCase (button_key key)) (has pressed key))
            (nth_error BUTTONS i))
  /\ (forall (name : Btn.GamepadButtonName) (active : bool),
        In (ButtonPill (toUpperCase (button_key name)) active)
           (ButtonLegend pressed axes)
        <-> active = has pressed name).
Proof.
  assert (Hlabels : map pill_label (ButtonLegend pressed axes)
                    = ["L-STICK"; "R-STICK"; "A"; "B"; "X"; "Y"; "LB"; "RB"; "LT";
                       "RT"; "BACK"; "START"; "LS"; "RS"; "DPADUP"; "DPADDOWN";
                       "DPADLEFT"; "DPADRIGHT"; "HOME"]%string).
  { unfold ButtonLegend. cbv zeta. cbn [map pill_label]. rewrite map_map.
    reflexivity. }
  split; [reflexivity|].
  split.
  { rewrite Hlabels.
    repeat (constructor; [cbn [In]; intuition discriminate|]). constructor. }
  split; [reflexivity|].
  split.
  { intros i Hi. unfold ButtonLegend. cbv zeta. cbn [Nat.add nth_error].
    apply nth_error_map. }
  intros name active. unfold ButtonLegend. cbv zeta. split.
  - intros [Hin|[Hin|Hin]]; try discriminate Hin.
    apply in_map_iff in Hin. destruct Hin as [key [Heq _]].
    injection Heq as Hlab Hact. subst active.
    destruct key, name; try reflexivity; discriminate Hlab.
  - intros ->. right. right. apply in_map_iff. exists name.
    split; [reflexivity|]. destruct name; cbn; tauto.
Qed.

(** X21.  The controller line of the HUD is never empty: it reads "Connect a
    controller" while disconnected, and when connected the id of the
    controller, or "No controller" when there is no description or its id
    is the empty string. *)
Theorem controller_label_never_empty
    (connected : bool) (info : option String.string) :
  controllerLabel connected (infoName info) <> String.EmptyString
  /\ (connected = false ->
      controllerLabel connected (infoName info) = "Connect a controller"%string)
  /\ (connected = true ->
      forall id : String.string,
        info = Some id -> id <> String.EmptyString ->
        controllerLabel connected (infoName info) = id)
  /\ (connected = true ->
      info = None \/ info = Some String.EmptyString ->
      controllerLabel connected (infoName info) = "No controller"%string).
Proof.
  unfold controllerLabel, infoName.
  split; [|split; [|split]].
  - destruct connected; [|discriminate].
    destruct info as [[|c rest]|]; discriminate.
  - intros ->. reflexivity.
  - intros -> id -> Hid. destruct id; [contradiction | reflexivity].
  - intros -> [-> | ->]; reflexivity.
Qed.

(** X22.  The score starts at 0 and after n frames from mount it is between
    0 and n: a frame scores at most one point. *)
Theorem score_at_most_frames
    (boardSize : R) (vibrate : bool) (frames : list Frame) (g : Random) :
  score (mount boardSize g) = 0%Z
  /\ (0 <= score (fst (run boardSize vibrate frames (mount boardSize g)))
        <= Z.of_nat (length frames))%Z.
Proof.
  assert (H0 : score (mount boardSize g) = 0%Z) by (rewrite mount_eq; reflexivity).
  split; [exact H0|].
  pose proof (run_score_mono boardSize vibrate frames (mount boardSize g)) as H.
  rewrite H0 in H. lia.
Qed.
